(** * Flower baselines, adaptive federated optimization on CIFAR: [utils.py]

    A shallow embedding of the two [utils.py] modules
    ([flwr_baselines/experiments/...] and [flwr_baselines/publications/...])
    and the properties of their functions.

    Conventions of the embedding:
    - a Python [int] is a [Z], a Python [float] is a binary64 [float];
    - a [dict] with string keys is a [gmap string _];
    - a function that may raise returns a [result]; code that mutates an
      object or the outside world (the network, the file system, the current
      matplotlib figure) runs in the state-and-exception monad [M];
    - a value that is either a function object or [None] is an [option]. *)

From Stdlib Require Import ZArith QArith PrimFloat FloatOps SpecFloat.
From stdpp Require Import gmap strings list fin_maps pretty.

Set Warnings "-inexact-float".
Set Default Proof Using "Type".
Open Scope Z_scope.

(** ** The Python runtime *)

Module Py.

Inductive exn : Set :=
| TypeError
| ValueError
| KeyError
| ZeroDivisionError
| RuntimeError
| FileExistsError
| NotADirectoryError
| IsADirectoryError
| FileNotFoundError.

Inductive result (A : Type) : Type :=
| Ok (a : A)
| Raise (e : exn).
Global Arguments Ok {A} a.
Global Arguments Raise {A} e.

Global Instance result_ret : MRet result := λ A, @Ok A.
Global Instance result_bind : MBind result :=
  λ A B k r, match r with Ok a => k a | Raise e => Raise e end.

(** Statements run against a mutable world of type [W]; an exception
    leaves the world as it was when it was raised. *)
Definition M (W A : Type) : Type := W → result A * W.

Definition ret {W A} (a : A) : M W A := λ w, (Ok a, w).

Definition bind {W A B} (m : M W A) (k : A → M W B) : M W B :=
  λ w, match m w with
       | (Ok a, w') => k a w'
       | (Raise e, w') => (Raise e, w')
       end.

Global Instance M_ret {W} : MRet (M W) := λ A, @ret W A.
Global Instance M_bind {W} : MBind (M W) := λ A B k m, bind m k.

Definition get {W} : M W W := λ w, (Ok w, w).
Definition modify {W} (f : W → W) : M W unit := λ w, (Ok tt, f w).
Definition lift {W A} (r : result A) : M W A := λ w, (r, w).

(** [for x in xs: acc = body acc x] *)
Fixpoint for_each {W A B} (body : B → A → M W B) (xs : list A) (acc : B)
  : M W B :=
  match xs with
  | [] => ret acc
  | x :: xs' => acc' ← body acc x; for_each body xs' acc'
  end.

(** [f(a)] where [f] may be [None]: calling [None] raises [TypeError]. *)
Definition call {A B} (f : option (A → B)) (a : A) : result B :=
  match f with
  | Some g => Ok (g a)
  | None => Raise TypeError
  end.

(** [range(n)]: empty for [n <= 0]. *)
Definition range (n : Z) : list Z := seqZ 0 n.

(** [t * k] on a tuple: [k] copies of [t] one after the other (empty
    for [k <= 0]). *)
Definition tuple_mul {A} (t : list A) (k : Z) : list A :=
  mjoin (replicate (Z.to_nat k) t).

(** [a / b] on ints: true division. The exact quotient is kept; Python
    rounds it to the nearest float. *)
Definition truediv (a b : Z) : result Q :=
  if decide (b = 0) then Raise ZeroDivisionError
  else Ok (Qmake (Z.sgn b * a) (Z.to_pos (Z.abs b))).

(** [f"{x:.2f}"]: the exact value of the float, rounded to a multiple of
    1/100 (ties to the even multiple), written with the sign of the
    float, the integer part and two decimals. *)
Definition round_half_even (num : Z) (den : Z) : Z :=
  let q := num `div` den in
  let r := num `mod` den in
  if decide (2 * r < den) then q
  else if decide (2 * r = den) then (if Z.even q then q else q + 1)
  else q + 1.
Definition two_digits (n : Z) : string :=
  pretty (n `div` 10) +:+ pretty (n `mod` 10).
Definition fixed2 (sign : bool) (hundredths : Z) : string :=
  (if sign then "-" else EmptyString) +:+ pretty (hundredths `div` 100) +:+ "."
  +:+ two_digits (hundredths `mod` 100).
Definition format_2f (x : float) : string :=
  match Prim2SF x with
  | S754_nan => "nan"
  | S754_infinity sign => if sign then "-inf" else "inf"
  | S754_zero sign => fixed2 sign 0
  | S754_finite sign m e =>
      fixed2 sign
        (if decide (0 ≤ e) then Z.pos m * 2 ^ e * 100
         else round_half_even (Z.pos m * 100) (2 ^ (- e)))
  end.

(** The scalars a config may hold ([flwr.common.typing.Scalar], without
    [bytes], which this code never builds). *)
Inductive Scalar : Type :=
| SBool (b : bool)
| SInt (z : Z)
| SFloat (f : float)
| SStr (s : string).

Section Str.
(** [str] on a float is the shortest decimal that round-trips; the
    algorithm is CPython's and is taken as given. *)
Variable float_repr : float → string.

Definition str (v : Scalar) : string :=
  match v with
  | SBool b => if b then "True" else "False"
  | SInt z => pretty z
  | SFloat f => float_repr f
  | SStr s => s
  end.
End Str.

End Py.

Import Py.

(** ** Paths and the file system (pathlib, [open]) *)

Module Pathlib.

(** A path is the list of its components; [p / name] adds one. The
    names joined are taken to be plain ones, without a separator. *)
Definition Path : Type := list string.
Definition joinpath (p : Path) (name : string) : Path := p ++ [name].
Infix "</>" := joinpath (at level 40, left associativity).

(** What a path leads to. [C] is what a file holds. *)
Inductive node (C : Type) : Type :=
| Dir
| File (content : C).
Global Arguments Dir {C}.
Global Arguments File {C} content.

Definition is_file {C} (n : option (node C)) : bool :=
  match n with Some (File _) => true | _ => false end.
Definition is_dir {C} (p : Path) (n : option (node C)) : bool :=
  match p, n with
  | [], _ => true                         (* the root *)
  | _, Some Dir => true
  | _, _ => false
  end.

(** The path itself and its ancestors below the root, outermost first. *)
Definition prefixes (p : Path) : list Path :=
  (λ n, take n p) <$> seq 1 (length p).
Definition parent (p : Path) : Path := take (length p - 1)%nat p.

(** [p.mkdir(exist_ok=True, parents=True)]: creates the directory and the
    ancestors that do not exist; an existing directory is left alone; a
    regular file in the way is an error. *)
Definition mkdir {C} (p : Path) : M (gmap Path (node C)) unit :=
  λ fs, match find (λ q, is_file (fs !! q)) (prefixes p) with
        | Some q =>
            (Raise (if decide (q = p) then FileExistsError
                    else NotADirectoryError), fs)
        | None => (Ok tt, foldl (λ fs q, <[q := Dir]> fs) fs (prefixes p))
        end.

(** [torch.save(obj, p)]: writes the file, replacing an older one; the
    parent must be a directory and [p] must not be one. *)
Definition save {C} (obj : C) (p : Path) : M (gmap Path (node C)) unit :=
  λ fs, match fs !! p with
        | Some Dir => (Raise IsADirectoryError, fs)
        | _ => if is_dir (parent p) (fs !! parent p)
               then (Ok tt, <[p := File obj]> fs)
               else (Raise (if is_file (fs !! parent p)
                            then NotADirectoryError
                            else FileNotFoundError), fs)
        end.

(** [torch.load(p)]: what the file at [p] holds. *)
Definition load {C} (p : Path) : M (gmap Path (node C)) C :=
  λ fs, match fs !! p with
        | Some (File obj) => (Ok obj, fs)
        | Some Dir => (Raise IsADirectoryError, fs)
        | None => (Raise FileNotFoundError, fs)
        end.

End Pathlib.

Import Pathlib.

(** ** The current figure (matplotlib.pyplot) *)

Module Pyplot.

(** The calls made on [plt], in order. *)
Inductive call : Type :=
| Plot (x : list Z) (y : list float)
| Axhline (y : float) (color linestyle : string)
| Title (s : string)
| Xlabel (s : string)
| Ylabel (s : string)
| Savefig (p : Path).

(** [plt.plot(x, y)] refuses sequences of different lengths
    ("x and y must have same first dimension"). *)
Definition plot (x : list Z) (y : list float) : M (list call) unit :=
  λ calls, if decide (length x = length y) then (Ok tt, calls ++ [Plot x y])
           else (Raise ValueError, calls).
Definition axhline (y : float) (color linestyle : string)
    : M (list call) unit :=
  modify (λ calls, calls ++ [Axhline y color linestyle]).
Definition title (s : string) : M (list call) unit :=
  modify (λ calls, calls ++ [Title s]).
Definition xlabel (s : string) : M (list call) unit :=
  modify (λ calls, calls ++ [Xlabel s]).
Definition ylabel (s : string) : M (list call) unit :=
  modify (λ calls, calls ++ [Ylabel s]).
Definition savefig (p : Path) : M (list call) unit :=
  modify (λ calls, calls ++ [Savefig p]).

End Pyplot.

(** ** Image pipelines (torchvision.transforms) *)

Module Transforms.

(** A pipeline as the modules build it. *)
#[warnings="-register-all"]
Inductive transform : Type :=
| ToTensor
| Normalize (mean std : float * float * float)
| RandomHorizontalFlip
| Compose (steps : list transform).

(** The number of random steps in a pipeline. *)
Fixpoint flips (t : transform) : nat :=
  match t with
  | RandomHorizontalFlip => 1
  | Compose steps => foldr (λ step n, flips step + n)%nat 0%nat steps
  | _ => 0
  end.

Definition transform_cifar10_test : transform :=
  Compose [ToTensor;
           Normalize (0.4914, 0.4822, 0.4465)%float
                     (0.2023, 0.1994, 0.2010)%float].
Definition transform_cifar100_test : transform :=
  Compose [ToTensor;
           Normalize (0.5071, 0.4865, 0.4409)%float
                     (0.2673, 0.2564, 0.2762)%float].
Definition transform_cifar10_train : transform :=
  Compose [RandomHorizontalFlip; transform_cifar10_test].
(** Only the publications module has this one. *)
Definition transform_cifar100_train : transform :=
  Compose [RandomHorizontalFlip; transform_cifar100_test].

(** [get_transforms] of the publications module. *)
Definition get_transforms (num_classes : Z) : gmap string transform :=
  if decide (num_classes = 10)
  then <["test" := transform_cifar10_test]>
       (<["train" := transform_cifar10_train]> ∅)
  else <["test" := transform_cifar100_test]>
       (<["train" := transform_cifar100_train]> ∅).

End Transforms.

(** ** The tensor engine (PyTorch), as far as this code uses it *)

Module Torch.

(** An array with its shape; [numpy.ndarray] and [torch.Tensor] alike. *)
Record tensor : Type := Tensor { shape : list nat; data : list float }.

(** [numpy.atleast_1d]: a 0-dimensional array becomes a 1-element vector. *)
Definition atleast_1d (v : tensor) : tensor :=
  match shape v with
  | [] => Tensor [1%nat] (data v)
  | _ => v
  end.

(** One row of class scores per sample. *)
Definition logits : Type := list float.

(** Calls into the engine that the properties below count. *)
Inductive event : Set :=
| Forward (training grad : bool) (batch_size : nat)
| ZeroGrad
| Backward
| Step.

Global Instance event_eq_dec : EqDecision event.
Proof. solve_decision. Defined.

(** The network object the functions receive and mutate, the global
    autograd switch, and the log of engine calls made so far. *)
Record world : Type := World {
  net_state : list (string * tensor);   (* [net.state_dict()], in order *)
  net_training : bool;                  (* [net.training] *)
  grad_enabled : bool;                  (* [torch.is_grad_enabled()] *)
  trace : list event
}.

Definition set_net_state (sd : list (string * tensor)) (w : world) : world :=
  World sd (net_training w) (grad_enabled w) (trace w).
Definition set_training (b : bool) (w : world) : world :=
  World (net_state w) b (grad_enabled w) (trace w).
Definition set_grad_enabled (b : bool) (w : world) : world :=
  World (net_state w) (net_training w) b (trace w).
Definition log (e : event) (w : world) : world :=
  World (net_state w) (net_training w) (grad_enabled w) (trace w ++ [e]).

(** [net.train()] and [net.eval()] *)
Definition net_train : M world unit := modify (set_training true).
Definition net_eval : M world unit := modify (set_training false).

(** [with torch.no_grad(): body]: the switch is off inside the block and
    is put back on the way out, also when the block raises. *)
Definition no_grad {A} (body : M world A) : M world A :=
  λ w, let prev := grad_enabled w in
       let '(r, w') := body (set_grad_enabled false w) in
       (r, set_grad_enabled prev w').

(** The dict comprehension [{k: f(v) for k, v in items}]: a later item
    with the same key replaces an earlier one. *)
Definition dict_of_items {V} (items : list (string * V)) : gmap string V :=
  foldl (λ d kv, <[kv.1 := kv.2]> d) ∅ items.

(** [net.load_state_dict(sd, strict=True)]: every entry of [sd] whose name
    and shape match a parameter is copied into it; then a [RuntimeError]
    is raised if a parameter has no entry (missing key), an entry names no
    parameter (unexpected key) or a shape differs (size mismatch). *)
Definition missing_keys (params : list (string * tensor))
    (sd : gmap string tensor) : list string :=
  filter (λ k, sd !! k = None) params.*1.
Definition unexpected_keys (params : list (string * tensor))
    (sd : gmap string tensor) : list string :=
  filter (λ k, k ∉ params.*1) (elements (dom sd)).
Definition size_mismatch (sd : gmap string tensor) (kt : string * tensor)
    : Prop :=
  match sd !! kt.1 with
  | Some t' => shape t' ≠ shape kt.2
  | None => False
  end.
Global Instance size_mismatch_dec sd kt : Decision (size_mismatch sd kt).
Proof. unfold size_mismatch. destruct (sd !! kt.1); apply _. Defined.
Definition copy_param (sd : gmap string tensor) (kt : string * tensor)
    : string * tensor :=
  match sd !! kt.1 with
  | Some t' => if decide (shape t' = shape kt.2) then (kt.1, t') else kt
  | None => kt
  end.
Definition load_state_dict (sd : gmap string tensor) : M world unit :=
  λ w, let params := net_state w in
       let w' := set_net_state (copy_param sd <$> params) w in
       if decide (missing_keys params sd = [] ∧
                  unexpected_keys params sd = [] ∧
                  filter (size_mismatch sd) params = [])
       then (Ok tt, w')
       else (Raise RuntimeError, w').

(** [DataLoader(dataset, batch_size=n)] without shuffling: the samples in
    order, [n] at a time; the last batch may be shorter. *)
Fixpoint collate {A} (n fuel : nat) (samples : list A) : list (list A) :=
  match fuel, samples with
  | S fuel', _ :: _ => take n samples :: collate n fuel' (drop n samples)
  | _, _ => []
  end.
Definition DataLoader {A} (dataset : list A) (batch_size : nat)
    : list (list A) :=
  collate batch_size (length dataset) dataset.

(** [(predicted == labels).sum().item()]: the positions where the two
    agree. The two have one entry per sample of the batch. *)
Definition count_equal (predicted labels : list nat) : Z :=
  Z.of_nat (length (filter (λ pl, pl.1 = pl.2) (zip predicted labels))).

End Torch.

Import Torch.

(** ** Functions with the same text in both modules *)

Module Utils.
Section Loops.

(** A sample is an image and its label. *)
Context {image : Type}.
Local Abbreviation sample := (image * nat)%type.

(** The engine: the network's forward pass on a batch (it depends on the
    parameters and on [net.training]), [CrossEntropyLoss], the index that
    [torch.max(_, 1)] returns for a row, and the SGD optimizer, whose state
    (gradients and momentum buffers) is kept abstract. *)
Variable forward : bool → list (string * tensor) → list image → list logits.
Variable cross_entropy : list logits → list nat → float.
Variable argmax : logits → nat.
Variable optimizer : Type.
Variable SGD : list (string * tensor) → float → float → optimizer.
Variable zero_grad : optimizer → optimizer.
Variable backward :
  optimizer → list (string * tensor) → list image → list nat → optimizer.
Variable sgd_step :
  optimizer → list (string * tensor) → list (string * tensor) * optimizer.

(** [net(images)] *)
Definition net_call (images : list image) : M world (list logits) :=
  λ w, (Ok (forward (net_training w) (net_state w) images),
        log (Forward (net_training w) (grad_enabled w) (length images)) w).

(** [optimizer.zero_grad()], [loss.backward()], [optimizer.step()] *)
Definition optimizer_zero_grad (opt : optimizer) : M world optimizer :=
  λ w, (Ok (zero_grad opt), log ZeroGrad w).
Definition loss_backward (opt : optimizer) (images : list image)
    (labels : list nat) : M world optimizer :=
  λ w, (Ok (backward opt (net_state w) images labels), log Backward w).
Definition optimizer_step (opt : optimizer) : M world optimizer :=
  λ w, let '(sd, opt') := sgd_step opt (net_state w) in
       (Ok opt', log Step (set_net_state sd w)).

(** The body of the inner loop of [train]. Moving a tensor to the device
    does not change it. *)
Definition train_batch (opt : optimizer) (batch : list sample)
    : M world optimizer :=
  let images := batch.*1 in
  let labels := batch.*2 in
  opt ← optimizer_zero_grad opt;
  outputs ← net_call images;
  let loss := cross_entropy outputs labels in
  opt ← loss_backward opt images labels;
  optimizer_step opt.

Definition train (trainloader : list (list sample)) (epochs : Z)
    (learning_rate momentum : float) : M world unit :=
  w ← get;
  let optimizer := SGD (net_state w) learning_rate momentum in
  net_train;;
  for_each (λ opt _, for_each train_batch trainloader opt)
           (range epochs) optimizer;;
  mret tt.

(** The body of the loop of [test]. *)
Definition test_batch (acc : Z * Z * float) (data : list sample)
    : M world (Z * Z * float) :=
  let '(correct, total, loss) := acc in
  let images := data.*1 in
  let labels := data.*2 in
  outputs ← net_call images;
  let loss := (loss + cross_entropy outputs labels)%float in
  let predicted := argmax <$> outputs in
  let total := total + Z.of_nat (length labels) in
  let correct := correct + count_equal predicted labels in
  mret (correct, total, loss).

Definition test (testloader : list (list sample)) : M world (float * Q) :=
  net_eval;;
  '(correct, total, loss) ←
    no_grad (for_each test_batch testloader (0, 0, 0%float));
  accuracy ← lift (truediv correct total);
  mret (loss, accuracy).

End Loops.

Section Evaluate.
Context {image : Type}.
Variable forward : bool → list (string * tensor) → list image → list logits.
Variable cross_entropy : list logits → list nat → float.
Variable argmax : logits → nat.

(** [net = get_model()]: a new network, in training mode as every new
    module is. *)
Definition new_net (fresh : list (string * tensor)) : M world unit :=
  modify (λ w, set_training true (set_net_state fresh w)).

(** The closure [evaluate] of [get_cifar_eval_fn]; [fresh] is the state
    dict of the network that the model constructor builds and [testset]
    the test split the closure holds. The two modules differ in the
    constructor call only. The device only says where tensors live. *)
Definition evaluate (fresh : list (string * tensor))
    (testset : list (image * nat)) (weights : list tensor)
    : M world (float * gmap string Q) :=
  new_net fresh;;
  w ← get;
  let state_dict :=
    dict_of_items
      ((λ kv, (kv.1, atleast_1d kv.2)) <$> zip (net_state w).*1 weights) in
  load_state_dict state_dict;;
  let testloader := DataLoader testset 50 in
  '(loss, accuracy) ← Utils.test forward cross_entropy argmax testloader;
  mret (loss, {["accuracy" := accuracy]}).

End Evaluate.

Section Partition.
(** [XY] is a dataset or a partition of one, [dist] a Dirichlet
    distribution. [create_lda_partitions] is [flwr.dataset.utils.common]'s
    partitioner, which is not part of these modules. *)
Context {XY dist : Type}.
Variable create_lda_partitions :
  XY → option dist → Z → float → result (list XY * dist).

(** The body of the loop of [partition_and_save]. *)
Definition save_partition (fed_dir : Path) (_ : unit) (item : nat * XY)
    : M (gmap Path (node XY)) unit :=
  let '(idx, partition) := item in
  let path_dir := fed_dir </> pretty idx in
  mkdir path_dir;;
  save partition (path_dir </> "train.pt").

Definition partition_and_save (dataset : XY) (fed_dir : Path)
    (dirichlet_dist : option dist) (num_partitions : Z) (concentration : float)
    : M (gmap Path (node XY)) dist :=
  '(clients_partitions, dist) ←
    lift (create_lda_partitions dataset dirichlet_dist num_partitions
            concentration);
  for_each (save_partition fed_dir) (imap pair clients_partitions) tt;;
  mret dist.

End Partition.

(** [x, y = zip(...)] over the unpacked list of pairs: with no pair there
    is nothing to bind [x] and [y] to. *)
Definition unzip2 {A B} (pairs : list (A * B)) : result (list A * list B) :=
  match pairs with
  | [] => Raise ValueError
  | _ => Ok (pairs.*1, pairs.*2)
  end.

(** [hist.metrics_centralized[metric_str]] *)
Definition getitem {V} (d : gmap string V) (k : string) : result V :=
  match d !! k with
  | Some v => Ok v
  | None => Raise KeyError
  end.

(** [hist] stands for [hist.metrics_centralized]. [y] is a tuple, so
    [y * 100] is the tuple repeated. *)
Definition plot_metric_from_history (hist : gmap string (list (Z * float)))
    (metric_str strategy_name : string) (expected_maximum : float)
    (save_path : Path) : M (list Pyplot.call) unit :=
  '(x, y) ← lift (pairs ← getitem hist metric_str; unzip2 pairs);
  Pyplot.plot x (tuple_mul y 100);;
  Pyplot.axhline expected_maximum "r" "--";;
  Pyplot.title ("Centralized Validation - " +:+ strategy_name);;
  Pyplot.xlabel "Rounds";;
  Pyplot.ylabel "Accuracy";;
  Pyplot.savefig save_path.
End Utils.

(** ** [experiments/adaptive_federated_optimization/cifar/utils.py] *)

Module Experiments.
Section Functions.
(** [raw] is an image as the dataset stores it, [image] the tensor the
    test transform makes of it, [dist] a Dirichlet distribution. The
    libraries: torchvision's [resnet18] with [GroupNorm(2, _)] layers (the
    state dict of a new network), the CIFAR datasets (root and [train]
    flag; the download may fail), the test transforms, the engine calls of
    [Utils], the partitioner, and [str] on floats. *)
Context {raw image dist : Type}.
Variable resnet18 : Z → list (string * tensor).
Variable CIFAR10 CIFAR100 : Path → bool → result (list (raw * nat)).
Variable transform_cifar10_test transform_cifar100_test : raw → image.
Variable forward : bool → list (string * tensor) → list image → list logits.
Variable cross_entropy : list logits → list nat → float.
Variable argmax : logits → nat.
Variable create_lda_partitions :
  list raw * list nat → option dist → Z → float →
  result (list (list raw * list nat) * dist).
Variable float_repr : float → string.

Definition get_model (num_classes : Z) : list (string * tensor) :=
  resnet18 num_classes.

(** [evaluate] builds its network with [get_model()], that is with the
    default of 10 classes, whatever [num_classes] is. *)
Definition get_cifar_eval_fn (path_original_dataset : Path) (num_classes : Z)
    : result (list tensor → M world (float * gmap string Q)) :=
  let '(CIFAR, transform) :=
    if decide (num_classes = 10) then (CIFAR10, transform_cifar10_test)
    else (CIFAR100, transform_cifar100_test) in
  data ← CIFAR path_original_dataset false;
  let testset := (λ xy, (transform xy.1, xy.2)) <$> data in
  mret (Utils.evaluate forward cross_entropy argmax (get_model 10) testset).

Definition gen_cifar10_partitions (path_original_dataset fed_dir : Path)
    (num_total_clients : Z) (lda_concentration : float)
    : M (gmap Path (node (list raw * list nat))) unit :=
  trainset ← lift (CIFAR10 path_original_dataset true);
  let flwr_trainset := (trainset.*1, trainset.*2) in
  Utils.partition_and_save create_lda_partitions flwr_trainset fed_dir None
    num_total_clients lda_concentration;;
  mret tt.

(** The closure [fit_config] of [gen_fit_config_fn]. *)
Definition fit_config (epochs_per_round batch_size : Z)
    (client_learning_rate : float) (rnd : Z) : gmap string string :=
  <["client_learning_rate" := str float_repr (SFloat client_learning_rate)]>
  (<["batch_size" := str float_repr (SInt batch_size)]>
  (<["epochs" := str float_repr (SInt epochs_per_round)]>
  (<["epoch_global" := str float_repr (SInt rnd)]> ∅))).

(** [gen_fit_config_fn] defines [fit_config] and ends: it has no [return]
    statement, so a call evaluates to [None]. *)
Definition gen_fit_config_fn (epochs_per_round batch_size : Z)
    (client_learning_rate : float) : option (Z → gmap string string) :=
  let fit_config :=
    fit_config epochs_per_round batch_size client_learning_rate in
  None.

End Functions.

Section Parameters.
(** [weights_to_parameters] is [flwr.common.parameter]'s, which is not part
    of this module; [parameters] is what it returns. *)
Context {parameters : Type}.
Variable resnet18 : Z → list (string * tensor).
Variable weights_to_parameters : list tensor → parameters.

(** [get_initial_parameters] takes no argument: the model is [get_model()],
    with 10 classes. Moving a tensor to the CPU and viewing it as an array
    do not change it. *)
Definition get_initial_parameters : parameters :=
  let model := get_model resnet18 10 in
  let weights := model.*2 in
  weights_to_parameters weights.

End Parameters.
End Experiments.

(** ** [publications/adaptive_federated_optimization/cifar/utils.py] *)

Module Publications.
Section Functions.
Context {raw image dist : Type}.
Variable resnet18 : Z → list (string * tensor).
Variable CIFAR10 CIFAR100 : Path → bool → result (list (raw * nat)).
Variable transform_cifar10_test transform_cifar100_test : raw → image.
Variable forward : bool → list (string * tensor) → list image → list logits.
Variable cross_entropy : list logits → list nat → float.
Variable argmax : logits → nat.
Variable create_lda_partitions :
  list raw * list nat → option dist → Z → float →
  result (list (list raw * list nat) * dist).

Definition get_cifar_model (num_classes : Z) : list (string * tensor) :=
  resnet18 num_classes.

(** The closure [on_fit_config] of [gen_on_fit_config_fn]. *)
Definition on_fit_config (epochs_per_round batch_size : Z)
    (client_learning_rate : float) (rnd : Z) : gmap string Scalar :=
  <["client_learning_rate" := SFloat client_learning_rate]>
  (<["batch_size" := SInt batch_size]>
  (<["epochs" := SInt epochs_per_round]>
  (<["epoch_global" := SInt rnd]> ∅))).

Definition gen_on_fit_config_fn (epochs_per_round batch_size : Z)
    (client_learning_rate : float) : option (Z → gmap string Scalar) :=
  let on_fit_config :=
    on_fit_config epochs_per_round batch_size client_learning_rate in
  Some on_fit_config.

Definition get_cifar_eval_fn (path_original_dataset : Path) (num_classes : Z)
    : result (list tensor → M world (float * gmap string Q)) :=
  let CIFAR := if decide (num_classes = 10) then CIFAR10 else CIFAR100 in
  let transform_test :=
    if decide (num_classes = 10) then transform_cifar10_test
    else transform_cifar100_test in
  data ← CIFAR path_original_dataset false;
  let testset := (λ xy, (transform_test xy.1, xy.2)) <$> data in
  mret (Utils.evaluate forward cross_entropy argmax
          (get_cifar_model num_classes) testset).

Definition gen_cifar10_partitions (path_original_dataset : Path)
    (dataset_name : string) (num_total_clients : Z) (lda_concentration : float)
    : M (gmap Path (node (list raw * list nat))) Path :=
  let fed_dir :=
    path_original_dataset </> dataset_name </> "partitions"
      </> pretty num_total_clients </> format_2f lda_concentration in
  trainset ← lift (CIFAR10 path_original_dataset true);
  let flwr_trainset := (trainset.*1, trainset.*2) in
  Utils.partition_and_save create_lda_partitions flwr_trainset fed_dir None
    num_total_clients lda_concentration;;
  mret fed_dir.

End Functions.

Section Parameters.
Context {parameters : Type}.
Variable resnet18 : Z → list (string * tensor).
Variable weights_to_parameters : list tensor → parameters.

Definition get_initial_parameters (num_classes : Z) : parameters :=
  let model := get_cifar_model resnet18 num_classes in
  let weights := model.*2 in
  weights_to_parameters weights.

End Parameters.

Section Dataset.
(** [raw] is an image as an array, [pil] a PIL image, [image] what the
    transform makes of one. [fromarray] is [PIL.Image.fromarray]. *)
Context {raw pil image : Type}.
Variable fromarray : raw → pil.

(** The fields of a [ClientDataset]. *)
Record ClientDataset : Type := {
  transform : option (pil → image);
  X : list raw;
  Y : list nat
}.

(** [ClientDataset(path_to_data, transform)] *)
Definition ClientDataset_init (path_to_data : Path)
    (transform : option (pil → image))
    : M (gmap Path (node (list raw * list nat))) ClientDataset :=
  '(X, Y) ← load path_to_data;
  mret {| transform := transform; X := X; Y := Y |}.

(** [len(self)] *)
Definition ClientDataset_len (self : ClientDataset) : Z :=
  Z.of_nat (length (Y self)).

(** [a[idx]] on an array with an int: a negative index counts from the
    end; [None] stands for [IndexError]. *)
Definition array_getitem {A} (a : list A) (idx : Z) : option A :=
  let n := Z.of_nat (length a) in
  if decide (0 ≤ idx) then a !! Z.to_nat idx
  else if decide (- n ≤ idx) then a !! Z.to_nat (n + idx)
  else None.

(** An index is an int or a tensor holding one, which [tolist] unwraps. *)
Inductive index : Type :=
| IntIndex (idx : Z)
| TensorIndex (idx : Z).
Definition tolist (idx : index) : Z :=
  match idx with IntIndex i => i | TensorIndex i => i end.

(** [self[idx]]: the image is a PIL image when there is no transform. *)
Definition ClientDataset_getitem (self : ClientDataset) (idx : index)
    : option ((pil + image) * nat) :=
  let idx := tolist idx in
  a ← array_getitem (X self) idx;
  let x := fromarray a in
  y ← array_getitem (Y self) idx;
  let x := match transform self with
           | Some f => inr (f x)
           | None => inl x
           end in
  Some (x, y).

End Dataset.
End Publications.

(** ** Vocabulary of the properties *)

Module Spec.
Section Spec.
Context {image : Type}.
Variable forward : bool → list (string * tensor) → list image → list logits.
Variable cross_entropy : list logits → list nat → float.
Variable argmax : logits → nat.
Local Abbreviation sample := (image * nat)%type.

(** What the loop of [test] accumulates over the batches of [loader], for
    a network with parameters [sd] in evaluation mode. *)
Definition batch_correct (sd : list (string * tensor)) (b : list sample) : Z :=
  count_equal (argmax <$> forward false sd b.*1) b.*2.
Definition loop_correct sd (loader : list (list sample)) : Z :=
  foldr (λ b n, batch_correct sd b + n) 0 loader.
Definition loop_total (loader : list (list sample)) : Z :=
  foldr (λ b n, Z.of_nat (length b) + n) 0 loader.
Definition loop_loss sd (loader : list (list sample)) (l0 : float) : float :=
  foldl (λ l b, l + cross_entropy (forward false sd b.*1) b.*2)%float l0 loader.

(** The labels of all the samples, the class predicted for each of them
    (the argmax over its row of logits), how many samples are predicted
    right, and how many samples there are. *)
Definition labels_of (loader : list (list sample)) : list nat :=
  loader ≫= λ b, b.*2.
Definition predictions sd (loader : list (list sample)) : list nat :=
  loader ≫= λ b, argmax <$> forward false sd b.*1.
Definition top1_correct sd (loader : list (list sample)) : Z :=
  count_equal (predictions sd loader) (labels_of loader).
Definition samples_seen (loader : list (list sample)) : Z :=
  Z.of_nat (length (mjoin loader)).

(** The forward pass returns one row per image of every batch. *)
Definition one_row_per_image (training : bool) sd
    (loader : list (list sample)) : Prop :=
  Forall (λ b, length (forward training sd b.*1) = length b) loader.

(** The engine calls of one iteration of the inner loop of [train]. *)
Definition batch_events (training grad : bool) (b : list sample)
    : list event :=
  [ZeroGrad; Forward training grad (length b); Backward; Step].
Definition steps (events : list event) : Z :=
  Z.of_nat (length (filter (λ e, e = Step) events)).

End Spec.

(** [w'] is [w] after the engine calls [events]: the two switches are as
    they were. *)
Definition after (w : world) (events : list event) (w' : world) : Prop :=
  net_training w' = net_training w ∧ grad_enabled w' = grad_enabled w ∧
  trace w' = trace w ++ events.

(** The state dict that [evaluate] builds from [weights] for a network
    with the parameters [fresh]. *)
Definition built_state_dict (fresh : list (string * tensor))
    (weights : list tensor) : gmap string tensor :=
  dict_of_items ((λ kv, (kv.1, atleast_1d kv.2)) <$> zip fresh.*1 weights).

(** [fresh1] and [fresh2] have the same parameter names and shapes. *)
Definition same_layout (fresh1 fresh2 : list (string * tensor)) : Prop :=
  Forall2 (λ kt1 kt2, kt1.1 = kt2.1 ∧ shape kt1.2 = shape kt2.2) fresh1 fresh2.

(** [fs'] is [fs] outside of [fed_dir], its ancestors and what is below
    it. *)
Definition same_outside {C} (fed_dir : Path) (fs fs' : gmap Path (node C))
    : Prop :=
  ∀ q, ¬ q `prefix_of` fed_dir → ¬ fed_dir `prefix_of` q → fs' !! q = fs !! q.

(** A decimal digit. *)
Definition digit (c : Ascii.ascii) : Prop :=
  (48 ≤ Ascii.nat_of_ascii c ≤ 57)%nat.

(** The file system lets [partition_and_save] write under [fed_dir]: no
    regular file sits where a directory has to be, and no directory where
    a [train.pt] has to be. *)
Definition can_hold {C} (fs : gmap Path (node C)) (fed_dir : Path) : Prop :=
  (∀ q, q `prefix_of` fed_dir → is_file (fs !! q) = false) ∧
  (∀ idx : nat,
     is_file (fs !! (fed_dir </> pretty idx)) = false ∧
     fs !! (fed_dir </> pretty idx </> "train.pt") ≠ Some Dir).

End Spec.

(** ** A small engine to run the functions on *)

Module Demo.

(** An image is a number; the network scores two classes and gives
    image [n] the row [[1; 0]] when [n] is 0 and [[0; 1]] otherwise,
    whatever its parameters. *)
Definition forward (training : bool) (sd : list (string * tensor))
    (images : list nat) : list logits :=
  (λ n, match n with O => [1; 0] | _ => [0; 1] end%float) <$> images.

(** The first index that holds the largest score. *)
Fixpoint argmax_from (best : float) (best_i i : nat) (row : list float) : nat :=
  match row with
  | [] => best_i
  | x :: row' =>
      if (best <? x)%float then argmax_from x i (S i) row'
      else argmax_from best best_i (S i) row'
  end.
Definition argmax (row : logits) : nat :=
  match row with
  | [] => 0%nat
  | x :: row' => argmax_from x 0 1 row'
  end.

(** A stand-in for the loss: half a point per row. *)
Definition cross_entropy (outputs : list logits) (labels : list nat) : float :=
  foldr (λ _ l, l + 0.5)%float 0%float outputs.

(** A network with two parameters. *)
Definition two_params : list (string * tensor) :=
  [("fc.weight", Tensor [2%nat] [0; 0]%float);
   ("fc.bias", Tensor [1%nat] [0%float])].

Definition world0 : world := World two_params true true [].

(** An optimizer without state, which leaves the parameters alone. *)
Definition SGD (params : list (string * tensor)) (lr momentum : float) : unit :=
  tt.
Definition zero_grad (opt : unit) : unit := opt.
Definition backward (opt : unit) (sd : list (string * tensor))
    (images labels : list nat) : unit := opt.
Definition sgd_step (opt : unit) (sd : list (string * tensor))
    : list (string * tensor) * unit := (sd, opt).

(** A training set of two samples and a partitioner that gives every
    sample a partition of its own. *)
Definition CIFAR10 (root : Path) (train : bool) : result (list (nat * nat)) :=
  Ok [(0, 0); (1, 1)]%nat.
Definition create_lda_partitions (dataset : list nat * list nat)
    (dirichlet_dist : option unit) (num_partitions : Z) (concentration : float)
    : result (list (list nat * list nat) * unit) :=
  Ok ((λ xy, ([xy.1], [xy.2])) <$> zip dataset.1 dataset.2, tt).

End Demo.

(** * Properties *)

Import Spec.

(** ** The monad and the Python runtime *)

Section MonadLemmas.
Context {W : Type}.

Lemma bind_ok {A B} (m : M W A) (k : A → M W B) w a w' :
  m w = (Ok a, w') → (m ≫= k) w = k a w'.
Proof. intros H. unfold mbind, M_bind, bind. by rewrite H. Qed.

Lemma bind_raise {A B} (m : M W A) (k : A → M W B) w e w' :
  m w = (Raise e, w') → (m ≫= k) w = (Raise e, w').
Proof. intros H. unfold mbind, M_bind, bind. by rewrite H. Qed.

Lemma for_each_app {A B} (body : B → A → M W B) xs ys acc w :
  for_each body (xs ++ ys) acc w
  = (for_each body xs acc ≫= for_each body ys) w.
Proof.
  revert acc w. induction xs as [|x xs IH]; intros acc w; simpl.
  - done.
  - unfold mbind, M_bind, bind. destruct (body acc x w) as [[a|e] w']; [|done].
    apply IH.
Qed.

End MonadLemmas.

Lemma truediv_zero a : truediv a 0 = Raise ZeroDivisionError.
Proof. done. Qed.

Lemma truediv_pos a b : 0 < b → truediv a b = Ok (Qmake a (Z.to_pos b)).
Proof.
  intros Hb. unfold truediv. case_decide; [lia|].
  by rewrite Z.sgn_pos, Z.mul_1_l, Z.abs_eq by lia.
Qed.

Lemma count_equal_nonneg predicted labels : 0 ≤ count_equal predicted labels.
Proof. unfold count_equal. lia. Qed.

Lemma count_equal_le predicted labels :
  count_equal predicted labels ≤ Z.of_nat (length labels).
Proof.
  unfold count_equal.
  pose proof (length_filter (λ pl : nat * nat, pl.1 = pl.2) (zip predicted labels)).
  pose proof (length_zip_with pair predicted labels). lia.
Qed.

Lemma count_equal_app p1 l1 p2 l2 :
  length p1 = length l1 →
  count_equal (p1 ++ p2) (l1 ++ l2) = count_equal p1 l1 + count_equal p2 l2.
Proof.
  intros Hlen. unfold count_equal.
  rewrite zip_with_app by done. rewrite filter_app, length_app. lia.
Qed.

(** ** [format_2f] *)

Lemma pretty_digit (d : Z) :
  0 ≤ d < 10 → ∃ c, pretty d = String c EmptyString ∧ digit c.
Proof.
  intros Hd.
  assert (d = 0 ∨ d = 1 ∨ d = 2 ∨ d = 3 ∨ d = 4 ∨ d = 5 ∨ d = 6 ∨ d = 7 ∨
          d = 8 ∨ d = 9) as Hcases by lia.
  destruct_or!; subst d; eexists; (split; [reflexivity|]);
    unfold digit; vm_compute; split; by repeat constructor.
Qed.

Lemma round_half_even_nonneg num den :
  0 ≤ num → 0 < den → 0 ≤ round_half_even num den.
Proof.
  intros Hnum Hden. unfold round_half_even.
  pose proof (Z.div_pos num den Hnum Hden).
  repeat case_decide; try destruct (Z.even _); lia.
Qed.

Lemma fixed2_two_decimals sign hundredths :
  ∃ sgn int_part d1 d2,
    fixed2 sign hundredths
    = sgn +:+ int_part +:+ "." +:+ String d1 (String d2 EmptyString) ∧
    digit d1 ∧ digit d2.
Proof.
  unfold fixed2, two_digits.
  pose proof (Z.mod_pos_bound hundredths 100 ltac:(lia)) as Hr.
  destruct (pretty_digit ((hundredths `mod` 100) `div` 10)) as (d1 & -> & Hd1);
    [split; [apply Z.div_pos; lia|apply Z.div_lt_upper_bound; lia]|].
  destruct (pretty_digit ((hundredths `mod` 100) `mod` 10)) as (d2 & -> & Hd2);
    [apply Z.mod_pos_bound; lia|].
  by eexists _, _, d1, d2.
Qed.

(** A finite float is written with exactly two digits after the point. *)
Lemma format_2f_two_decimals (x : float) :
  Prim2SF x ≠ S754_nan → (∀ sign, Prim2SF x ≠ S754_infinity sign) →
  ∃ sgn int_part d1 d2,
    format_2f x = sgn +:+ int_part +:+ "." +:+ String d1 (String d2 EmptyString) ∧
    digit d1 ∧ digit d2.
Proof.
  intros Hnan Hinf. unfold format_2f.
  destruct (Prim2SF x) as [sign|sign| |sign m e];
    [apply fixed2_two_decimals|by destruct (Hinf sign)|done|
     apply fixed2_two_decimals].
Qed.

Example format_2f_examples :
  format_2f 0.1 = "0.10" ∧ format_2f 0.125 = "0.12" ∧
  format_2f 0.375 = "0.38" ∧ format_2f 1000 = "1000.00" ∧
  format_2f (-0.001) = "-0.00" ∧ format_2f 2.675 = "2.67".
Proof. by vm_compute. Qed.

(** ** [DataLoader] *)



Lemma DataLoader_nonempty {A} (dataset : list A) (batch_size : nat) :
  (0 < batch_size)%nat → dataset ≠ [] →
  Exists (λ b, b ≠ []) (DataLoader dataset batch_size).
Proof.
  intros Hn Hne. unfold DataLoader. destruct dataset as [|x dataset]; [done|].
  cbn [length collate]. left. by destruct batch_size; [lia|].
Qed.

(** ** [test] *)

Section TestProperties.
Context {image : Type}.
Variable forward : bool → list (string * tensor) → list image → list logits.
Variable cross_entropy : list logits → list nat → float.
Variable argmax : logits → nat.

Local Abbreviation sample := (image * nat)%type.
Local Abbreviation test := (Utils.test forward cross_entropy argmax).
Local Abbreviation test_batch := (Utils.test_batch forward cross_entropy argmax).
Local Abbreviation batch_correct := (Spec.batch_correct forward argmax).
Local Abbreviation loop_correct := (Spec.loop_correct forward argmax).
Local Abbreviation loop_loss := (Spec.loop_loss forward cross_entropy).
Local Abbreviation top1_correct := (Spec.top1_correct forward argmax).
Local Abbreviation predictions := (Spec.predictions forward argmax).
Local Abbreviation one_row_per_image := (Spec.one_row_per_image forward).
Local Abbreviation loop_total := (@Spec.loop_total image).
Local Abbreviation labels_of := (@Spec.labels_of image).
Local Abbreviation samples_seen := (@Spec.samples_seen image).

Lemma test_batch_run correct total loss (b : list sample) w :
  test_batch (correct, total, loss) b w
  = (Ok (correct + count_equal
                     (argmax <$> forward (net_training w) (net_state w) b.*1)
                     b.*2,
         total + Z.of_nat (length b),
         (loss + cross_entropy
                   (forward (net_training w) (net_state w) b.*1) b.*2)%float),
     log (Forward (net_training w) (grad_enabled w) (length b)) w).
Proof.
  unfold Utils.test_batch, Utils.net_call, mbind, M_bind, bind, mret, M_ret, ret.
  by rewrite !length_fmap.
Qed.

Lemma test_loop loader : ∀ correct total loss w,
  net_training w = false → grad_enabled w = false →
  for_each test_batch loader (correct, total, loss) w
  = (Ok (correct + loop_correct (net_state w) loader,
         total + loop_total loader,
         loop_loss (net_state w) loader loss),
     World (net_state w) false false
       (trace w ++ ((λ b, Forward false false (length b)) <$> loader))).
Proof.
  induction loader as [|b loader IH]; intros correct total loss w Htr Hgr.
  - simpl. unfold ret. destruct w; simpl in *; subst.
    by rewrite !Z.add_0_r, app_nil_r.
  - cbn [for_each]. erewrite bind_ok by apply test_batch_run.
    rewrite IH by done. unfold log. cbn [net_state net_training grad_enabled trace].
    rewrite Htr, Hgr, <-app_assoc.
    unfold Spec.batch_correct, Spec.loop_correct, Spec.loop_total, Spec.loop_loss.
    cbn [fmap list_fmap foldr app foldl]. by rewrite !Z.add_assoc.
Qed.

(** [test] in one equation: the network is left in evaluation mode, the
    autograd switch is as before, there is one forward pass per batch, made
    with the switch off, and the result is the division's. *)
Lemma test_run loader w :
  test loader w
  = let w' := World (net_state w) false (grad_enabled w)
                (trace w ++ ((λ b, Forward false false (length b)) <$> loader))
    in
    match truediv (loop_correct (net_state w) loader) (loop_total loader) with
    | Ok accuracy => (Ok (loop_loss (net_state w) loader 0, accuracy), w')
    | Raise e => (Raise e, w')
    end.
Proof.
  unfold Utils.test.
  erewrite bind_ok by reflexivity.
  erewrite bind_ok.
  2:{ unfold no_grad. rewrite test_loop by done. reflexivity. }
  cbn [net_state grad_enabled set_grad_enabled set_training trace].
  rewrite !Z.add_0_l. unfold mbind, M_bind, bind, lift.
  by destruct (truediv _ _).
Qed.

Lemma loop_total_nonneg loader : 0 ≤ loop_total loader.
Proof. induction loader; simpl; lia. Qed.

Lemma loop_total_samples loader : loop_total loader = samples_seen loader.
Proof.
  unfold Spec.samples_seen. induction loader as [|b loader IH]; [done|].
  simpl. rewrite length_app, IH. lia.
Qed.

Lemma loop_total_pos loader :
  Exists (λ b, b ≠ []) loader → 0 < loop_total loader.
Proof.
  induction 1 as [b loader Hb|b loader _ IH]; simpl.
  - pose proof (loop_total_nonneg loader). destruct b; [done|]. simpl. lia.
  - lia.
Qed.

Lemma loop_correct_top1 sd loader :
  one_row_per_image false sd loader →
  loop_correct sd loader = top1_correct sd loader.
Proof.
  unfold Spec.top1_correct, Spec.predictions, Spec.labels_of.
  induction 1 as [|b loader Hb _ IH]; [done|].
  cbn [Spec.loop_correct foldr mbind list_bind]. fold (loop_correct sd loader).
  rewrite count_equal_app, IH by (by rewrite !length_fmap, Hb). done.
Qed.

Lemma loop_correct_bounds sd loader :
  0 ≤ loop_correct sd loader ≤ loop_total loader.
Proof.
  induction loader as [|b loader IH]; simpl; [lia|].
  pose proof (count_equal_nonneg (argmax <$> forward false sd b.*1) b.*2).
  pose proof (count_equal_le (argmax <$> forward false sd b.*1) b.*2).
  unfold Spec.batch_correct. rewrite length_fmap in *. lia.
Qed.

(** X4. Whatever [test] returns as accuracy lies between 0 and 1. *)
Lemma test_accuracy_range loader w loss accuracy :
  (test loader w).1 = Ok (loss, accuracy) → (0 <= accuracy <= 1)%Q.
Proof.
  rewrite test_run. pose proof (loop_correct_bounds (net_state w) loader).
  unfold truediv. case_decide; [done|]. cbn [fst]. intros [= _ <-].
  rewrite Z.sgn_pos, Z.mul_1_l, Z.abs_eq by lia.
  unfold Qle. simpl. rewrite Z2Pos.id by lia. lia.
Qed.

(** C4. On a loader without batches [test] raises [ZeroDivisionError]
    from [correct / total] and returns nothing; on a loader with at least
    one batch of at least one label the division is defined and [test]
    returns a pair. *)
Theorem test_empty_loader_zero_division :
  (∀ w, (test [] w).1 = Raise ZeroDivisionError) ∧
  (∀ loader w, Exists (λ b, b ≠ []) loader →
     ∃ loss accuracy, (test loader w).1 = Ok (loss, accuracy)).
Proof.
  split.
  - intros w. by rewrite test_run.
  - intros loader w Hne. rewrite test_run.
    rewrite truediv_pos by by apply loop_total_pos. eauto.
Qed.

(** C6. On a loader with at least one sample, [test] makes one pass:
    one forward call per batch, in order, each in evaluation mode and with
    gradients disabled. It returns the sum of the batches' cross-entropy
    losses and the number of samples whose argmax over the logits is the
    label divided by the number of samples. *)
Theorem test_one_pass_loss_and_top1_accuracy loader w :
  Exists (λ b, b ≠ []) loader →
  one_row_per_image false (net_state w) loader →
  test loader w
  = (Ok (loop_loss (net_state w) loader 0,
         Qmake (top1_correct (net_state w) loader)
               (Z.to_pos (samples_seen loader))),
     World (net_state w) false (grad_enabled w)
       (trace w ++ ((λ b, Forward false false (length b)) <$> loader))).
Proof.
  intros Hne Hrows. rewrite test_run.
  rewrite truediv_pos by by apply loop_total_pos.
  by rewrite loop_correct_top1, loop_total_samples.
Qed.

Lemma count_equal_const c c' predicted : ∀ labels,
  Forall (λ p, p = c') predicted → Forall (λ l, l = c) labels →
  length predicted = length labels →
  count_equal predicted labels
  = if decide (c' = c) then Z.of_nat (length labels) else 0.
Proof.
  unfold count_equal.
  induction predicted as [|p predicted IH]; intros [|l labels] Hp Hl Hlen;
    try discriminate Hlen.
  - by case_decide.
  - apply Forall_cons in Hp as [-> Hp]. apply Forall_cons in Hl as [-> Hl].
    injection Hlen as Hlen. specialize (IH labels Hp Hl Hlen).
    cbn [zip_with]. rewrite filter_cons. cbn [fst snd].
    destruct (decide (c' = c)) as [->|Hne].
    + cbn [length]. lia.
    + lia.
Qed.

Lemma predictions_length sd loader :
  one_row_per_image false sd loader →
  length (predictions sd loader) = length (labels_of loader).
Proof.
  unfold Spec.predictions, Spec.labels_of.
  induction 1 as [|b loader Hb _ IH]; [done|].
  cbn [mbind list_bind]. by rewrite !length_app, IH, !length_fmap, Hb.
Qed.

Lemma labels_of_length loader :
  Z.of_nat (length (labels_of loader)) = samples_seen loader.
Proof.
  unfold Spec.labels_of, Spec.samples_seen.
  induction loader as [|b loader IH]; simpl in *; [done|].
  rewrite !length_app, length_fmap, !Nat2Z.inj_add. f_equal. exact IH.
Qed.

(** C7, amended. On a loader with at least one sample, all of whose
    samples carry the same label and are given the same class by the
    network, the accuracy is exactly 0 or exactly 1. *)
Theorem test_one_class_constant_prediction loader w c c' :
  Exists (λ b, b ≠ []) loader →
  one_row_per_image false (net_state w) loader →
  Forall (λ l, l = c) (labels_of loader) →
  Forall (λ p, p = c') (predictions (net_state w) loader) →
  ∃ loss accuracy,
    (test loader w).1 = Ok (loss, accuracy) ∧
    (accuracy == 0 ∨ accuracy == 1)%Q.
Proof.
  intros Hne Hrows Hl Hp. rewrite test_run.
  rewrite truediv_pos by by apply loop_total_pos.
  rewrite loop_correct_top1, loop_total_samples by done.
  eexists _, _. split; [done|].
  unfold Spec.top1_correct.
  rewrite (count_equal_const c c') by auto using predictions_length.
  rewrite labels_of_length.
  assert (0 < samples_seen loader)
    by (rewrite <-loop_total_samples; by apply loop_total_pos).
  unfold Qeq. simpl. case_decide; [right|left]; [|done].
  rewrite Z2Pos.id by done. lia.
Qed.

End TestProperties.

(** ** [train] *)

Section TrainProperties.
Context {image : Type}.
Variable forward : bool → list (string * tensor) → list image → list logits.
Variable cross_entropy : list logits → list nat → float.
Variable optimizer : Type.
Variable SGD : list (string * tensor) → float → float → optimizer.
Variable zero_grad : optimizer → optimizer.
Variable backward :
  optimizer → list (string * tensor) → list image → list nat → optimizer.
Variable sgd_step :
  optimizer → list (string * tensor) → list (string * tensor) * optimizer.

Local Abbreviation sample := (image * nat)%type.
Local Abbreviation train :=
  (Utils.train forward cross_entropy optimizer SGD zero_grad backward sgd_step).
Local Abbreviation train_batch :=
  (Utils.train_batch forward cross_entropy optimizer zero_grad backward sgd_step).
Local Abbreviation batch_events := (@Spec.batch_events image).

Lemma after_nil w : after w [] w.
Proof. unfold after. by rewrite app_nil_r. Qed.

Lemma after_trans w1 w2 w3 ev1 ev2 :
  after w1 ev1 w2 → after w2 ev2 w3 → after w1 (ev1 ++ ev2) w3.
Proof.
  unfold after. intros (-> & -> & ->) (-> & -> & ->). by rewrite app_assoc.
Qed.

Lemma train_batch_run opt (b : list sample) w :
  ∃ opt' w', train_batch opt b w = (Ok opt', w') ∧
    after w (batch_events (net_training w) (grad_enabled w) b) w'.
Proof.
  unfold Utils.train_batch, Utils.optimizer_zero_grad, Utils.net_call,
    Utils.loss_backward, Utils.optimizer_step, mbind, M_bind, bind.
  cbn [log net_state net_training grad_enabled trace].
  destruct (sgd_step _ _) as [sd opt']. eexists _, _. split; [done|].
  unfold after, Spec.batch_events, log, set_net_state.
  cbn [net_state net_training grad_enabled trace].
  by rewrite length_fmap, <-!app_assoc.
Qed.

Lemma train_epoch_run (loader : list (list sample)) : ∀ opt w,
  ∃ opt' w', for_each train_batch loader opt w = (Ok opt', w') ∧
    after w (loader ≫= batch_events (net_training w) (grad_enabled w)) w'.
Proof.
  induction loader as [|b loader IH]; intros opt w.
  - eexists _, _. split; [done|]. apply after_nil.
  - destruct (train_batch_run opt b w) as (opt1 & w1 & Hrun & Hafter).
    destruct (IH opt1 w1) as (opt2 & w2 & Hrun2 & Hafter2).
    exists opt2, w2. split.
    + cbn [for_each]. by erewrite bind_ok.
    + destruct Hafter as (Htr & Hgr & Htrace). rewrite Htr, Hgr in Hafter2.
      cbn [mbind list_bind]. eapply after_trans; [|done]. done.
Qed.

Lemma train_epochs_run (loader : list (list sample)) {A} (rounds : list A) :
  ∀ opt w,
  ∃ opt' w',
    for_each (λ opt _, for_each train_batch loader opt) rounds opt w
    = (Ok opt', w') ∧
    after w (mjoin (replicate (length rounds)
                      (loader ≫= batch_events (net_training w) (grad_enabled w))))
          w'.
Proof.
  induction rounds as [|r rounds IH]; intros opt w.
  - eexists _, _. split; [done|]. apply after_nil.
  - destruct (train_epoch_run loader opt w) as (opt1 & w1 & Hrun & Hafter).
    destruct (IH opt1 w1) as (opt2 & w2 & Hrun2 & Hafter2).
    exists opt2, w2. split.
    + cbn [for_each]. by erewrite bind_ok.
    + destruct Hafter as (Htr & Hgr & Htrace). rewrite Htr, Hgr in Hafter2.
      cbn [length replicate mjoin list_join]. eapply after_trans; [|done]. done.
Qed.

Lemma steps_app ev1 ev2 : Spec.steps (ev1 ++ ev2) = Spec.steps ev1 + Spec.steps ev2.
Proof. unfold Spec.steps. rewrite filter_app, length_app. lia. Qed.

Lemma steps_epoch training grad (loader : list (list sample)) :
  Spec.steps (loader ≫= batch_events training grad) = Z.of_nat (length loader).
Proof.
  induction loader as [|b loader IH]; [done|].
  cbn [mbind list_bind] in *. rewrite steps_app, IH. cbn [length].
  unfold Spec.steps, Spec.batch_events. rewrite !filter_cons, filter_nil.
  repeat (case_decide; try done). simpl. lia.
Qed.

Lemma steps_epochs n events :
  Spec.steps (mjoin (replicate n events)) = Z.of_nat n * Spec.steps events.
Proof.
  induction n as [|n IH]; [done|].
  change (mjoin (replicate (S n) events))
    with (events ++ mjoin (replicate n events)).
  rewrite steps_app, IH. lia.
Qed.

(** C9. For [epochs >= 0], [train] returns after exactly [epochs] passes
    over the loader: the engine calls it makes are, [epochs] times over,
    one [zero_grad], forward, [backward] and [step] per batch, in order,
    with the network in training mode. So it takes
    [epochs * len(trainloader)] optimizer steps, and none when [epochs]
    is 0. *)
Theorem train_runs_every_epoch (trainloader : list (list sample)) epochs
    learning_rate momentum w :
  0 ≤ epochs →
  ∃ w',
    train trainloader epochs learning_rate momentum w = (Ok tt, w') ∧
    net_training w' = true ∧
    trace w' = trace w ++
      mjoin (replicate (Z.to_nat epochs)
               (trainloader ≫= batch_events true (grad_enabled w))) ∧
    Spec.steps (trace w')
    = Spec.steps (trace w) + epochs * Z.of_nat (length trainloader) ∧
    (epochs = 0 → trace w' = trace w).
Proof.
  intros Hepochs. unfold Utils.train.
  destruct (train_epochs_run trainloader (range epochs)
              (SGD (net_state w) learning_rate momentum) (set_training true w))
    as (opt' & w' & Hrun & Htr & Hgr & Htrace).
  exists w'. split.
  - erewrite bind_ok by reflexivity. erewrite bind_ok by reflexivity.
    by erewrite bind_ok.
  - unfold range in Htrace. rewrite length_seqZ in Htrace.
    cbn [set_training net_training grad_enabled trace] in *.
    split_and!; [done|done| |].
    + rewrite Htrace, steps_app, steps_epochs, steps_epoch. lia.
    + intros ->. rewrite Htrace. cbn. by rewrite app_nil_r.
Qed.

End TrainProperties.

(** ** [load_state_dict] and the callback [evaluate] *)

Lemma filter_nil_Forall {A} (P : A → Prop) `{∀ x, Decision (P x)} (l : list A) :
  Forall (λ x, ¬ P x) l → filter P l = [].
Proof.
  induction 1 as [|x l Hx _ IH]; [done|].
  by rewrite filter_cons, decide_False.
Qed.

Lemma dict_of_items_dom {V} (items : list (string * V)) :
  dom (dict_of_items items) = list_to_set items.*1.
Proof.
  unfold dict_of_items. induction items as [|[k v] items IH] using rev_ind.
  - apply dom_empty_L.
  - rewrite foldl_snoc, fmap_app, list_to_set_app_L, dom_insert_L, IH.
    cbn [fmap list_fmap fst list_to_set]. by rewrite (right_id_L ∅ (∪)), (comm_L (∪)).
Qed.

Lemma dict_of_items_lookup_nodup {V} (items : list (string * V)) i k v :
  NoDup items.*1 → items !! i = Some (k, v) →
  dict_of_items items !! k = Some v.
Proof.
  unfold dict_of_items. revert i.
  induction items as [|[k' v'] items IH] using rev_ind; intros i Hnd Hi.
  - done.
  - rewrite foldl_snoc. rewrite fmap_app in Hnd.
    apply NoDup_app in Hnd as (Hnd & Hnotin & _).
    destruct (decide (i = length items)) as [->|Hne].
    + rewrite list_lookup_middle in Hi by done. simplify_eq/=.
      apply lookup_insert_eq.
    + assert (i < length items)%nat as Hlt.
      { apply lookup_lt_Some in Hi. rewrite length_app in Hi. simpl in Hi. lia. }
      rewrite lookup_app_l in Hi by done. cbn [fst snd].
      rewrite lookup_insert_ne; [by eapply IH|].
      intros <-. apply (Hnotin k'); [|by left].
      apply list_elem_of_fmap. exists (k', v). split; [done|].
      by eapply list_elem_of_lookup_2.
Qed.

Lemma fst_zip_items (keys : list string) (weights : list tensor) :
  ((λ kv, (kv.1, atleast_1d kv.2)) <$> zip keys weights).*1
  = take (length weights) keys.
Proof.
  revert weights. induction keys as [|k keys IH]; intros [|v weights]; try done.
  simpl. f_equal. apply IH.
Qed.

Section EvaluateProperties.
Context {image : Type}.
Variable forward : bool → list (string * tensor) → list image → list logits.
Variable cross_entropy : list logits → list nat → float.
Variable argmax : logits → nat.

Local Abbreviation evaluate := (Utils.evaluate forward cross_entropy argmax).
Local Abbreviation test := (Utils.test forward cross_entropy argmax).

Lemma evaluate_run fresh testset weights w :
  evaluate fresh testset weights w
  = match load_state_dict (built_state_dict fresh weights)
            (World fresh true (grad_enabled w) (trace w)) with
    | (Ok _, w') =>
        ('(loss, accuracy) ← test (DataLoader testset 50);
         mret (loss, {["accuracy" := accuracy]})) w'
    | (Raise e, w') => (Raise e, w')
    end.
Proof.
  unfold Utils.evaluate, Utils.new_net, modify, get, mbind, M_bind, bind.
  cbn [set_training set_net_state net_state net_training grad_enabled trace].
  fold (built_state_dict fresh weights).
  by destruct (load_state_dict _ _) as [[[]|e] w'].
Qed.

Lemma built_state_dict_take fresh weights :
  built_state_dict fresh (take (length fresh) weights)
  = built_state_dict fresh weights.
Proof.
  unfold built_state_dict.
  rewrite <-(length_fmap fst fresh) at 1. by rewrite zip_with_take_r.
Qed.

Lemma built_state_dict_dom fresh weights :
  dom (built_state_dict fresh weights)
  = list_to_set (take (length weights) fresh.*1).
Proof. unfold built_state_dict. by rewrite dict_of_items_dom, fst_zip_items. Qed.

Lemma missing_keys_short fresh weights :
  NoDup fresh.*1 → (length weights < length fresh)%nat →
  missing_keys fresh (built_state_dict fresh weights) ≠ [].
Proof.
  intros Hnd Hlen.
  destruct (lookup_lt_is_Some_2 fresh.*1 (length weights)) as [k Hk];
    [by rewrite length_fmap|].
  assert (k ∈ missing_keys fresh (built_state_dict fresh weights)) as Hin.
  { unfold missing_keys. apply list_elem_of_filter. split.
    - apply not_elem_of_dom. rewrite built_state_dict_dom.
      rewrite elem_of_list_to_set. intros [i Hi]%list_elem_of_lookup.
      apply lookup_take_Some in Hi as [Hi Hlt].
      pose proof (NoDup_lookup _ _ _ _ Hnd Hi Hk). lia.
    - by eapply list_elem_of_lookup_2. }
  intros Heq. rewrite Heq in Hin. by apply not_elem_of_nil in Hin.
Qed.

Lemma missing_keys_long fresh weights :
  (length fresh ≤ length weights)%nat →
  missing_keys fresh (built_state_dict fresh weights) = [].
Proof.
  intros Hlen. unfold missing_keys. apply filter_nil_Forall, Forall_forall.
  intros k Hk Hnone. apply not_elem_of_dom in Hnone. apply Hnone.
  rewrite built_state_dict_dom, take_ge by (rewrite length_fmap; lia).
  by apply elem_of_list_to_set.
Qed.

Lemma unexpected_keys_nil fresh weights :
  unexpected_keys fresh (built_state_dict fresh weights) = [].
Proof.
  unfold unexpected_keys. apply filter_nil_Forall, Forall_forall.
  intros k Hk Hnotin. apply Hnotin.
  apply elem_of_elements in Hk. rewrite built_state_dict_dom in Hk.
  apply elem_of_list_to_set in Hk. apply elem_of_take in Hk as (i & Hi & _).
  by eapply list_elem_of_lookup_2.
Qed.

Lemma built_state_dict_lookup fresh weights i k t v :
  NoDup fresh.*1 → fresh !! i = Some (k, t) → weights !! i = Some v →
  built_state_dict fresh weights !! k = Some (atleast_1d v).
Proof.
  intros Hnd Hi Hv. unfold built_state_dict.
  apply dict_of_items_lookup_nodup with i.
  - rewrite fst_zip_items. eapply sublist_NoDup; [done|apply sublist_take].
  - rewrite list_lookup_fmap, lookup_zip_with, list_lookup_fmap, Hi, Hv. done.
Qed.

Lemma size_mismatch_nil fresh weights :
  NoDup fresh.*1 → (length fresh ≤ length weights)%nat →
  Forall2 (λ kt v, shape (atleast_1d v) = shape kt.2) fresh
          (take (length fresh) weights) →
  filter (size_mismatch (built_state_dict fresh weights)) fresh = [].
Proof.
  intros Hnd Hlen Hshapes. apply filter_nil_Forall, Forall_lookup.
  intros i [k t] Hi. unfold size_mismatch. cbn [fst snd].
  destruct (Forall2_lookup_l _ _ _ _ _ Hshapes Hi) as (v & Hv & Hshape).
  apply lookup_take_Some in Hv as [Hv _].
  rewrite (built_state_dict_lookup _ _ _ _ _ _ Hnd Hi Hv). by intros [].
Qed.

(** With at least as many weights as parameters, the first of them of
    the parameters' shapes, and a test set that is not empty, [evaluate]
    returns a loss and the accuracy under ["accuracy"]. *)
Lemma evaluate_returns fresh testset weights w :
  NoDup fresh.*1 → (length fresh ≤ length weights)%nat →
  Forall2 (λ kt v, shape (atleast_1d v) = shape kt.2) fresh
          (take (length fresh) weights) →
  testset ≠ [] →
  ∃ loss accuracy,
    (evaluate fresh testset weights w).1
    = Ok (loss, {["accuracy" := accuracy]}).
Proof.
  intros Hnd Hlen Hshapes Hne. rewrite evaluate_run. unfold load_state_dict.
  cbn [net_state]. rewrite decide_True.
  2:{ split_and!; [by apply missing_keys_long|apply unexpected_keys_nil|
                   by apply size_mismatch_nil]. }
  unfold mbind, M_bind, bind. rewrite test_run.
  rewrite truediv_pos.
  2:{ apply loop_total_pos. by apply DataLoader_nonempty; [lia|]. }
  cbn zeta. eauto.
Qed.

(** C3, amended. When [weights] has fewer entries than the network has
    parameters, the strict load raises and [evaluate] returns no
    (loss, accuracy) result. *)
Theorem evaluate_fails_on_too_few_weights fresh testset weights w :
  NoDup fresh.*1 →
  (length weights < length fresh)%nat →
  (evaluate fresh testset weights w).1 = Raise RuntimeError.
Proof.
  intros Hnd Hlen. rewrite evaluate_run. unfold load_state_dict.
  cbn [net_state]. rewrite decide_False; [done|].
  intros [Hmissing _]. by eapply missing_keys_short.
Qed.

(** C5. When [weights] has more entries than the network has parameters,
    [evaluate] does what it does on the first [k] of them, [k] being the
    number of parameters: the state dict holds exactly the parameter names,
    so the strict load finds no missing and no unexpected key, and it
    succeeds when the first [k] weights have the parameters' shapes. *)
Theorem evaluate_ignores_extra_weights fresh testset weights w :
  NoDup fresh.*1 →
  (length fresh < length weights)%nat →
  evaluate fresh testset weights w
  = evaluate fresh testset (take (length fresh) weights) w ∧
  missing_keys fresh (built_state_dict fresh weights) = [] ∧
  unexpected_keys fresh (built_state_dict fresh weights) = [] ∧
  (Forall2 (λ kt v, shape (atleast_1d v) = shape kt.2) fresh
           (take (length fresh) weights) →
   (load_state_dict (built_state_dict fresh weights)
      (World fresh true (grad_enabled w) (trace w))).1 = Ok tt).
Proof.
  intros Hnd Hlen. split_and!.
  - by rewrite !evaluate_run, built_state_dict_take.
  - apply missing_keys_long. lia.
  - apply unexpected_keys_nil.
  - intros Hshapes. unfold load_state_dict. cbn [net_state].
    rewrite decide_True; [done|]. split_and!.
    + apply missing_keys_long. lia.
    + apply unexpected_keys_nil.
    + apply size_mismatch_nil; [done|lia|done].
Qed.

End EvaluateProperties.

(** ** Paths, [mkdir] and [save] *)

Lemma elem_of_prefixes (q p : Path) :
  q ∈ prefixes p ↔ ∃ n, (1 ≤ n ≤ length p)%nat ∧ q = take n p.
Proof.
  unfold prefixes. rewrite list_elem_of_fmap. split.
  - intros (n & -> & Hn%elem_of_seq). exists n. split; [lia|done].
  - intros (n & Hn & ->). exists n. split; [done|]. apply elem_of_seq. lia.
Qed.

Lemma prefixes_self (p : Path) name : p </> name ∈ prefixes (p </> name).
Proof.
  apply elem_of_prefixes. exists (length (p </> name)). unfold joinpath.
  split; [rewrite length_app; simpl; lia|]. by rewrite firstn_all.
Qed.

Lemma prefixes_joinpath (q p : Path) name :
  q ∈ prefixes (p </> name) → q `prefix_of` p ∨ q = p </> name.
Proof.
  intros (n & Hn & ->)%elem_of_prefixes. unfold joinpath in *.
  rewrite length_app in Hn. simpl in Hn.
  destruct (decide (n ≤ length p)%nat).
  - left. rewrite take_app_le by done. apply prefix_take.
  - right. rewrite take_ge; [done|]. rewrite length_app. simpl. lia.
Qed.

Lemma prefixes_length (q p : Path) : q ∈ prefixes p → (length q ≤ length p)%nat.
Proof. intros (n & Hn & ->)%elem_of_prefixes. rewrite length_take. lia. Qed.

Lemma parent_joinpath (p : Path) name : parent (p </> name) = p.
Proof.
  unfold parent, joinpath. rewrite length_app. simpl.
  replace (length p + 1 - 1)%nat with (length p) by lia. apply take_app_length.
Qed.

Section FileSystem.
Context {C : Type}.
Implicit Types fs : gmap Path (node C).

Lemma mkdirs_lookup (ps : list Path) : ∀ fs q,
  foldl (λ fs q, <[q := Dir]> fs) fs ps !! q
  = if decide (q ∈ ps) then Some Dir else fs !! q.
Proof.
  induction ps as [|p ps IH]; intros fs q; cbn [foldl].
  - destruct (decide (q ∈ [])) as [H|]; [by apply not_elem_of_nil in H|done].
  - rewrite IH.
    destruct (decide (q ∈ ps)) as [Hin|Hnotin],
             (decide (q ∈ p :: ps)) as [Hin'|Hnotin']; try done.
    + exfalso. apply Hnotin'. by right.
    + apply elem_of_cons in Hin' as [->|?]; [|done]. apply lookup_insert_eq.
    + apply lookup_insert_ne. intros ->. apply Hnotin'. by left.
Qed.

Lemma mkdir_run (p : Path) fs :
  (∀ q, q ∈ prefixes p → is_file (fs !! q) = false) →
  mkdir p fs = (Ok tt, foldl (λ fs q, <[q := Dir]> fs) fs (prefixes p)).
Proof.
  intros Hfree. unfold mkdir.
  destruct (find _ _) as [q|] eqn:Hfind; [|done].
  apply find_some in Hfind as [Hin Hfile].
  apply list_elem_of_In in Hin. by rewrite Hfree in Hfile.
Qed.

Lemma save_run (obj : C) (p : Path) name fs :
  fs !! p = Some Dir → fs !! (p </> name) ≠ Some Dir →
  save obj (p </> name) fs = (Ok tt, <[p </> name := File obj]> fs).
Proof.
  intros Hdir Hfile. unfold save. rewrite parent_joinpath, Hdir.
  destruct (fs !! (p </> name)) as [[|c]|]; try done.
  all: by destruct p.
Qed.

End FileSystem.

(** ** [partition_and_save] and [gen_cifar10_partitions] *)

Lemma train_pt_not_prefix (fed_dir : Path) (i j : nat) (q : Path) :
  q ∈ prefixes (fed_dir </> pretty j) →
  q ≠ fed_dir </> pretty i </> "train.pt".
Proof.
  intros Hlen%prefixes_length ->. unfold joinpath in Hlen.
  rewrite !length_app in Hlen. simpl in Hlen. lia.
Qed.

Lemma train_pt_inj (fed_dir : Path) (i j : nat) :
  fed_dir </> pretty i </> "train.pt" = fed_dir </> pretty j </> "train.pt" →
  i = j.
Proof.
  unfold joinpath. intros [Heq _]%app_inj_tail.
  apply app_inj_tail in Heq as [_ Heq]. by apply (inj pretty) in Heq.
Qed.

Lemma imap_pair_fst {A} (l : list A) : (imap pair l).*1 = seq 0 (length l).
Proof.
  rewrite fmap_imap. transitivity (imap (λ j (_ : A), j) l).
  - by apply imap_ext.
  - by rewrite (imap_seq_0 l (λ j, j)), list_fmap_id.
Qed.

Section PartitionProperties.
Context {XY D : Type}.
Variable create_lda_partitions :
  XY → option D → Z → float → result (list XY * D).
Implicit Types fs : gmap Path (node XY).

Local Abbreviation partition_and_save :=
  (Utils.partition_and_save create_lda_partitions).

Lemma save_partition_run (fed_dir : Path) idx (partition : XY) fs :
  can_hold fs fed_dir →
  ∃ fs', Utils.save_partition fed_dir tt (idx, partition) fs = (Ok tt, fs') ∧
    can_hold fs' fed_dir ∧
    (∀ q, fs !! q = Some Dir → fs' !! q = Some Dir) ∧
    (∀ j : nat, j ≠ idx →
       fs' !! (fed_dir </> pretty j </> "train.pt")
       = fs !! (fed_dir </> pretty j </> "train.pt")) ∧
    fs' !! (fed_dir </> pretty idx) = Some Dir ∧
    fs' !! (fed_dir </> pretty idx </> "train.pt") = Some (File partition).
Proof.
  intros [Hprefix Hidx].
  set (dir := fed_dir </> pretty idx).
  set (fs1 := foldl (λ fs q, <[q := Dir]> fs) fs (prefixes dir)).
  assert (mkdir dir fs = (Ok tt, fs1)) as Hmkdir.
  { apply mkdir_run. intros q [Hq| ->]%prefixes_joinpath; [by apply Hprefix|].
    apply Hidx. }
  assert (fs1 !! dir = Some Dir) as Hdir.
  { unfold fs1. rewrite mkdirs_lookup, decide_True; [done|].
    apply prefixes_self. }
  assert (∀ j : nat, fs1 !! (fed_dir </> pretty j </> "train.pt")
                     = fs !! (fed_dir </> pretty j </> "train.pt")) as Hfiles.
  { intros j. unfold fs1. rewrite mkdirs_lookup, decide_False; [done|].
    intros Hin. by eapply train_pt_not_prefix. }
  assert (∀ q, is_file (fs !! q) = false → is_file (fs1 !! q) = false) as Hnofile.
  { intros q Hq. unfold fs1. rewrite mkdirs_lookup. by case_decide. }
  exists (<[dir </> "train.pt" := File partition]> fs1). split_and!.
  - unfold Utils.save_partition. erewrite bind_ok by exact Hmkdir.
    apply save_run; [done|]. unfold dir. rewrite Hfiles. apply Hidx.
  - split.
    + intros q Hq. rewrite lookup_insert_ne; [by apply Hnofile, Hprefix|].
      intros <-. apply prefix_length in Hq. unfold dir, joinpath in Hq.
      rewrite !length_app in Hq. simpl in Hq. lia.
    + intros j. split.
      * rewrite lookup_insert_ne; [apply Hnofile, Hidx|].
        unfold dir, joinpath. intros Heq%(f_equal length).
        rewrite !length_app in Heq. simpl in Heq. lia.
      * destruct (decide (j = idx)) as [->|Hne].
        -- fold dir. by rewrite lookup_insert_eq.
        -- rewrite lookup_insert_ne, Hfiles; [apply Hidx|].
           intros Heq%train_pt_inj. done.
  - intros q Hq. rewrite lookup_insert_ne.
    + unfold fs1. rewrite mkdirs_lookup. by case_decide.
    + intros <-. specialize (Hfiles idx). fold dir in Hfiles.
      destruct (Hidx idx) as [_ Hnodir]. by fold dir in Hnodir.
  - intros j Hne. rewrite lookup_insert_ne, Hfiles; [done|].
    intros Heq%train_pt_inj. done.
  - rewrite lookup_insert_ne; [done|].
    unfold dir, joinpath. intros Heq%(f_equal length).
    rewrite !length_app in Heq. simpl in Heq. lia.
  - apply lookup_insert_eq.
Qed.

Lemma save_partitions_run (fed_dir : Path) (items : list (nat * XY)) : ∀ fs,
  NoDup items.*1 → can_hold fs fed_dir →
  ∃ fs', for_each (Utils.save_partition fed_dir) items tt fs = (Ok tt, fs') ∧
    can_hold fs' fed_dir ∧
    (∀ q, fs !! q = Some Dir → fs' !! q = Some Dir) ∧
    (∀ j : nat, j ∉ items.*1 →
       fs' !! (fed_dir </> pretty j </> "train.pt")
       = fs !! (fed_dir </> pretty j </> "train.pt")) ∧
    (∀ idx partition, (idx, partition) ∈ items →
       fs' !! (fed_dir </> pretty idx) = Some Dir ∧
       fs' !! (fed_dir </> pretty idx </> "train.pt") = Some (File partition)).
Proof.
  induction items as [|[idx partition] items IH]; intros fs Hnd Hhold.
  - exists fs. split_and!; try done. intros idx partition Hin.
    by apply not_elem_of_nil in Hin.
  - apply NoDup_cons in Hnd as [Hfresh Hnd].
    destruct (save_partition_run fed_dir idx partition fs Hhold)
      as (fs1 & Hrun1 & Hhold1 & Hdirs1 & Hothers1 & Hdir1 & Hfile1).
    destruct (IH fs1 Hnd Hhold1)
      as (fs2 & Hrun2 & Hhold2 & Hdirs2 & Hothers2 & Hall2).
    exists fs2. split_and!.
    + cbn [for_each]. erewrite bind_ok by exact Hrun1.
      by destruct (Ok tt) eqn:?.
    + done.
    + auto.
    + intros j Hj. apply not_elem_of_cons in Hj as [Hne Hj].
      by rewrite Hothers2, Hothers1.
    + intros idx' partition' [Heq|Hin]%elem_of_cons.
      * simplify_eq. split; [by apply Hdirs2|]. by rewrite Hothers2.
      * by apply Hall2.
Qed.

Lemma partition_and_save_run dataset (fed_dir : Path) dirichlet_dist
    num_partitions concentration partitions dist fs :
  create_lda_partitions dataset dirichlet_dist num_partitions concentration
  = Ok (partitions, dist) →
  can_hold fs fed_dir →
  ∃ fs',
    partition_and_save dataset fed_dir dirichlet_dist num_partitions
      concentration fs = (Ok dist, fs') ∧
    ∀ idx partition, partitions !! idx = Some partition →
      fs' !! (fed_dir </> pretty idx) = Some Dir ∧
      fs' !! (fed_dir </> pretty idx </> "train.pt") = Some (File partition).
Proof.
  intros Hlda Hhold.
  destruct (save_partitions_run fed_dir (imap pair partitions) fs)
    as (fs' & Hrun & _ & _ & _ & Hall); [|done|].
  { rewrite imap_pair_fst. apply NoDup_seq. }
  exists fs'. split.
  - unfold Utils.partition_and_save. rewrite Hlda.
    erewrite bind_ok by reflexivity. cbv beta iota.
    by erewrite bind_ok by exact Hrun.
  - intros idx partition Hidx. apply Hall.
    by apply (elem_of_lookup_imap_2 pair).
Qed.

End PartitionProperties.

Section GenPartitionsProperties.
Context {raw D : Type}.
Variable CIFAR10 : Path → bool → result (list (raw * nat)).
Variable create_lda_partitions :
  list raw * list nat → option D → Z → float →
  result (list (list raw * list nat) * D).

Local Abbreviation partition_and_save :=
  (Utils.partition_and_save create_lda_partitions).
Local Abbreviation gen_cifar10_partitions :=
  (Publications.gen_cifar10_partitions CIFAR10 create_lda_partitions).

(** C10. When the partitioner returns [num_partitions] partitions and
    the file system lets them be written, [partition_and_save] returns the
    distribution the partitioner returned and leaves, for every [idx] in
    [0, num_partitions), the directory [fed_dir/<idx>] and in it the file
    [train.pt] holding partition [idx]. In the publications module
    [gen_cifar10_partitions] does so under (and returns) the directory
    [<root>/<dataset_name>/partitions/<num_total_clients>/<concentration>],
    the concentration being written with two decimals. *)
Theorem partition_and_save_layout :
  (∀ dataset (fed_dir : Path) dirichlet_dist num_partitions concentration
     partitions dist fs,
     create_lda_partitions dataset dirichlet_dist num_partitions concentration
     = Ok (partitions, dist) →
     Z.of_nat (length partitions) = num_partitions →
     can_hold fs fed_dir →
     ∃ fs',
       partition_and_save dataset fed_dir dirichlet_dist num_partitions
         concentration fs = (Ok dist, fs') ∧
       ∀ idx : nat, 0 ≤ Z.of_nat idx < num_partitions →
         ∃ partition, partitions !! idx = Some partition ∧
           fs' !! (fed_dir </> pretty idx) = Some Dir ∧
           fs' !! (fed_dir </> pretty idx </> "train.pt")
           = Some (File partition)) ∧
  (∀ (path_original_dataset : Path) dataset_name num_total_clients
     lda_concentration trainset partitions dist fs,
     CIFAR10 path_original_dataset true = Ok trainset →
     create_lda_partitions (trainset.*1, trainset.*2) None num_total_clients
       lda_concentration = Ok (partitions, dist) →
     Z.of_nat (length partitions) = num_total_clients →
     let fed_dir :=
       path_original_dataset </> dataset_name </> "partitions"
         </> pretty num_total_clients </> format_2f lda_concentration in
     can_hold fs fed_dir →
     ∃ fs',
       gen_cifar10_partitions path_original_dataset dataset_name
         num_total_clients lda_concentration fs = (Ok fed_dir, fs') ∧
       ∀ idx : nat, 0 ≤ Z.of_nat idx < num_total_clients →
         ∃ partition, partitions !! idx = Some partition ∧
           fs' !! (fed_dir </> pretty idx </> "train.pt")
           = Some (File partition)).
Proof.
  split.
  - intros dataset fed_dir dd n c partitions dist fs Hlda Hlen Hhold.
    destruct (partition_and_save_run _ _ _ _ _ _ _ _ _ Hlda Hhold)
      as (fs' & Hrun & Hall).
    exists fs'. split; [done|]. intros idx Hidx.
    destruct (lookup_lt_is_Some_2 partitions idx) as [partition Hp]; [lia|].
    exists partition. split; [done|]. by apply Hall.
  - intros root name n c trainset partitions dist fs Hdata Hlda Hlen fed_dir
      Hhold.
    destruct (partition_and_save_run _ _ _ _ _ _ _ _ _ Hlda Hhold)
      as (fs' & Hrun & Hall).
    exists fs'. split.
    + unfold Publications.gen_cifar10_partitions. rewrite Hdata.
      erewrite bind_ok by reflexivity. by erewrite bind_ok by exact Hrun.
    + intros idx Hidx.
      destruct (lookup_lt_is_Some_2 partitions idx) as [partition Hp]; [lia|].
      exists partition. split; [done|]. by apply Hall.
Qed.

End GenPartitionsProperties.

(** ** The callbacks of [get_cifar_eval_fn] *)

Section EvalCallbacks.
Context {raw image : Type}.
Variable resnet18 : Z → list (string * tensor).
Variable CIFAR10 CIFAR100 : Path → bool → result (list (raw * nat)).
Variable transform_cifar10_test transform_cifar100_test : raw → image.
Variable forward : bool → list (string * tensor) → list image → list logits.
Variable cross_entropy : list logits → list nat → float.
Variable argmax : logits → nat.

(** In the experiments module the callback is [evaluate] over a network
    built for 10 classes. *)
Lemma experiments_eval_fn path_original_dataset num_classes callback :
  Experiments.get_cifar_eval_fn resnet18 CIFAR10 CIFAR100
    transform_cifar10_test transform_cifar100_test forward cross_entropy
    argmax path_original_dataset num_classes = Ok callback →
  ∃ testset,
    callback = Utils.evaluate forward cross_entropy argmax (resnet18 10) testset.
Proof.
  unfold Experiments.get_cifar_eval_fn, Experiments.get_model.
  case_decide; cbn [mbind result_bind].
  - destruct (CIFAR10 _ _) as [data|err]; [|done]. intros [= <-]. eauto.
  - destruct (CIFAR100 _ _) as [data|err]; [|done]. intros [= <-]. eauto.
Qed.

(** In the publications module it is [evaluate] over a network built for
    [num_classes] classes. *)
Lemma publications_eval_fn path_original_dataset num_classes callback :
  Publications.get_cifar_eval_fn resnet18 CIFAR10 CIFAR100
    transform_cifar10_test transform_cifar100_test forward cross_entropy
    argmax path_original_dataset num_classes = Ok callback →
  ∃ testset,
    callback
    = Utils.evaluate forward cross_entropy argmax (resnet18 num_classes) testset.
Proof.
  unfold Publications.get_cifar_eval_fn, Publications.get_cifar_model.
  cbn [mbind result_bind].
  destruct (decide _); (destruct (_ path_original_dataset false) as [data|err];
    [|done]); intros [= <-]; eauto.
Qed.

End EvalCallbacks.

(** ** Config generators *)

Lemma fit_config_str_of_on_fit_config float_repr epochs_per_round batch_size
    client_learning_rate rnd :
  Experiments.fit_config float_repr epochs_per_round batch_size
    client_learning_rate rnd
  = str float_repr <$>
      Publications.on_fit_config epochs_per_round batch_size
        client_learning_rate rnd.
Proof.
  unfold Experiments.fit_config, Publications.on_fit_config.
  by rewrite !fmap_insert, fmap_empty.
Qed.

(** C1. [gen_on_fit_config_fn(2, 32, 0.01)] is a function whose config
    for round 5 has 2 under ["epochs"] and 32 under ["batch_size"];
    [gen_fit_config_fn(2, 32, 0.01)] is [None], and calling it with round
    5 raises [TypeError]. *)
Theorem fit_config_fn_at_2_32_round_5 (float_repr : float → string) :
  Experiments.gen_fit_config_fn float_repr 2 32 0.01 = None ∧
  call (Experiments.gen_fit_config_fn float_repr 2 32 0.01) 5
  = Raise TypeError ∧
  ∃ config,
    call (Publications.gen_on_fit_config_fn 2 32 0.01) 5 = Ok config ∧
    config !! "epochs" = Some (SInt 2) ∧
    config !! "batch_size" = Some (SInt 32).
Proof.
  split_and!; [done|done|]. eexists. split; [done|].
  unfold Publications.on_fit_config. by simplify_map_eq.
Qed.

(** C8. For all arguments and rounds, calling what the experiments
    generator returns raises [TypeError], since it returns [None], while
    calling what the publications generator returns gives the mapping of
    [on_fit_config]. The closure [fit_config], which is defined and not
    returned, is key for key the string encoding of that mapping. *)
Theorem config_generators_same_contract (float_repr : float → string)
    epochs_per_round batch_size client_learning_rate rnd :
  call (Experiments.gen_fit_config_fn float_repr epochs_per_round batch_size
          client_learning_rate) rnd = Raise TypeError ∧
  call (Publications.gen_on_fit_config_fn epochs_per_round batch_size
          client_learning_rate) rnd
  = Ok (Publications.on_fit_config epochs_per_round batch_size
          client_learning_rate rnd) ∧
  Experiments.fit_config float_repr epochs_per_round batch_size
    client_learning_rate rnd
  = str float_repr <$>
      Publications.on_fit_config epochs_per_round batch_size
        client_learning_rate rnd.
Proof. split_and!; [done|done|]. apply fit_config_str_of_on_fit_config. Qed.

(** ** [plot_metric_from_history] *)

Lemma tuple_mul_length {A} (t : list A) k :
  0 ≤ k → Z.of_nat (length (tuple_mul t k)) = k * Z.of_nat (length t).
Proof.
  intros Hk. unfold tuple_mul. rewrite <-(Z2Nat.id k) at 2 by done.
  induction (Z.to_nat k) as [|n IH]; [done|].
  change (mjoin (replicate (S n) t)) with (t ++ mjoin (replicate n t)).
  rewrite length_app. lia.
Qed.

(** For every history with at least one pair under [metric_str], the
    [y] handed to [plt.plot] is 100 times as long as [x]; the call raises
    and nothing is drawn or saved. *)
Lemma plot_metric_from_history_raises hist metric_str strategy_name
    expected_maximum save_path pairs calls :
  hist !! metric_str = Some pairs → pairs ≠ [] →
  Utils.plot_metric_from_history hist metric_str strategy_name
    expected_maximum save_path calls = (Raise ValueError, calls).
Proof.
  intros Hlookup Hne. unfold Utils.plot_metric_from_history, Utils.getitem.
  rewrite Hlookup. cbn [mbind result_bind]. destruct pairs as [|p pairs]; [done|].
  erewrite bind_ok by reflexivity. cbv beta iota.
  apply bind_raise. unfold Pyplot.plot. rewrite decide_False; [done|].
  pose proof (tuple_mul_length (p :: pairs).*2 100). rewrite !length_fmap in *.
  simpl in *. lia.
Qed.

(** C2. For the history [[(1, 0.5)]] the [y] handed to [plt.plot] is
    the tuple [(0.5,)] repeated 100 times, not [(50.0,)]: it is not paired
    one-to-one with the round numbers, the call raises [ValueError], and
    no reference line is drawn and no figure saved. *)
Theorem plot_metric_repeats_the_tuple :
  let hist : gmap string (list (Z * float)) :=
    {["accuracy" := [(1, 0.5%float)]]} in
  tuple_mul [(1, 0.5%float)].*2 100 = replicate 100 0.5%float ∧
  tuple_mul [(1, 0.5%float)].*2 100 ≠ [(0.5 * 100)%float] ∧
  Utils.plot_metric_from_history hist "accuracy" "FedAdam" 100 ["plot.png"] []
  = (Raise ValueError, []).
Proof.
  split_and!.
  - by vm_compute.
  - intros Heq%(f_equal length). by vm_compute in Heq.
  - by eapply plot_metric_from_history_raises.
Qed.

(** ** The properties on the small engine *)

Section Instances.
Local Abbreviation test := (Utils.test Demo.forward Demo.cross_entropy Demo.argmax).
Local Abbreviation evaluate :=
  (Utils.evaluate Demo.forward Demo.cross_entropy Demo.argmax).
Local Abbreviation train :=
  (Utils.train Demo.forward Demo.cross_entropy unit Demo.SGD Demo.zero_grad
     Demo.backward Demo.sgd_step).
Local Open Scope nat_scope.

(** A sequence of three weights for the network of two parameters: the
    lengths differ, and [evaluate] returns a loss and an accuracy. *)
Lemma evaluate_accepts_longer_weights :
  let weights :=
    [Tensor [2] [1; 2]%float; Tensor [] [3%float]; Tensor [7] []] in
  length weights ≠ length Demo.two_params ∧
  (evaluate Demo.two_params [(0, 0)] weights Demo.world0).1
  = Ok (0.5%float, {["accuracy" := 1%Q]}).
Proof. split; [done|]. by vm_compute. Qed.

(** Two samples of class 0, of which the network gets one right: the
    accuracy is one half. *)
Lemma test_one_class_half_right :
  let loader := [[(0, 0); (1, 0)]] in
  loader ≠ [] ∧
  Forall (λ l, l = 0) (Spec.labels_of loader) ∧
  (test loader Demo.world0).1 = Ok (1%float, (1 # 2)%Q) ∧
  ¬ ((1 # 2) == 0)%Q ∧ ¬ ((1 # 2) == 1)%Q.
Proof.
  split_and!; [done|by repeat constructor|by vm_compute|done|done].
Qed.

Lemma evaluate_fails_on_too_few_weights_witness :
  (evaluate Demo.two_params [(0, 0)] [Tensor [2] [1; 2]%float] Demo.world0).1
  = Raise RuntimeError.
Proof.
  apply evaluate_fails_on_too_few_weights.
  - refine (bool_decide_unpack _ _). vm_compute. exact I.
  - simpl. lia.
Defined.

Lemma test_empty_loader_zero_division_witness :
  ∃ loss accuracy, (test [[(0, 0)]] Demo.world0).1 = Ok (loss, accuracy).
Proof.
  apply (proj2 (test_empty_loader_zero_division Demo.forward
                  Demo.cross_entropy Demo.argmax)).
  by repeat constructor.
Defined.

Lemma test_one_pass_loss_and_top1_accuracy_witness :
  test [[(0, 0); (1, 0)]; [(1, 1)]] Demo.world0
  = (Ok (1.5%float, (2 # 3)%Q),
     World Demo.two_params false true
       [Forward false false 2; Forward false false 1]).
Proof.
  apply (test_one_pass_loss_and_top1_accuracy Demo.forward Demo.cross_entropy
           Demo.argmax [[(0, 0); (1, 0)]; [(1, 1)]] Demo.world0).
  - by repeat constructor.
  - by repeat constructor.
Defined.

Lemma test_one_class_constant_prediction_witness :
  ∃ loss accuracy,
    (test [[(1, 1); (2, 1)]; [(3, 1)]] Demo.world0).1 = Ok (loss, accuracy) ∧
    (accuracy == 0 ∨ accuracy == 1)%Q.
Proof.
  apply (test_one_class_constant_prediction Demo.forward Demo.cross_entropy
           Demo.argmax [[(1, 1); (2, 1)]; [(3, 1)]] Demo.world0 1 1).
  - by repeat constructor.
  - by repeat constructor.
  - by repeat constructor.
  - by repeat constructor.
Defined.

Lemma evaluate_ignores_extra_weights_witness :
  let weights :=
    [Tensor [2] [1; 2]%float; Tensor [] [3%float]; Tensor [7] []] in
  evaluate Demo.two_params [(0, 0)] weights Demo.world0
  = evaluate Demo.two_params [(0, 0)] (take 2 weights) Demo.world0 ∧
  missing_keys Demo.two_params (built_state_dict Demo.two_params weights) = [] ∧
  unexpected_keys Demo.two_params (built_state_dict Demo.two_params weights)
  = [] ∧
  (Forall2 (λ kt v, shape (atleast_1d v) = shape kt.2) Demo.two_params
           (take 2 weights) →
   (load_state_dict (built_state_dict Demo.two_params weights)
      (World Demo.two_params true true [])).1 = Ok tt).
Proof.
  apply (evaluate_ignores_extra_weights Demo.forward Demo.cross_entropy
           Demo.argmax Demo.two_params [(0, 0)]
           [Tensor [2] [1; 2]%float; Tensor [] [3%float]; Tensor [7] []]
           Demo.world0).
  - refine (bool_decide_unpack _ _). vm_compute. exact I.
  - simpl. lia.
Defined.

Lemma train_runs_every_epoch_witness :
  ∃ w',
    train [[(0, 0); (1, 1)]; [(1, 0)]] 2%Z 0.01%float 0.9%float Demo.world0
    = (Ok tt, w') ∧
    net_training w' = true ∧
    trace w' = trace Demo.world0 ++
      mjoin (replicate (Z.to_nat 2)
               ([[(0, 0); (1, 1)]; [(1, 0)]] ≫= Spec.batch_events true true)) ∧
    Spec.steps (trace w')
    = (Spec.steps (trace Demo.world0) + 2 * Z.of_nat 2)%Z ∧
    (2%Z = 0%Z → trace w' = trace Demo.world0).
Proof.
  apply (train_runs_every_epoch Demo.forward Demo.cross_entropy unit Demo.SGD
           Demo.zero_grad Demo.backward Demo.sgd_step
           [[(0, 0); (1, 1)]; [(1, 0)]] 2%Z 0.01%float 0.9%float Demo.world0).
  lia.
Defined.

Lemma can_hold_empty {C} (fed_dir : Path) :
  can_hold (∅ : gmap Path (node C)) fed_dir.
Proof.
  split; [intros q _; by rewrite lookup_empty|].
  intros idx. by rewrite !lookup_empty.
Qed.

Lemma partition_and_save_layout_witness :
  (∃ fs',
     Utils.partition_and_save Demo.create_lda_partitions ([0; 1], [0; 1])
       ["data"; "fed"] None 2%Z 0.1%float ∅ = (Ok tt, fs') ∧
     ∀ idx : nat, (0 ≤ Z.of_nat idx < 2)%Z →
       ∃ partition,
         [([0], [0]); ([1], [1])] !! idx = Some partition ∧
         fs' !! (["data"; "fed"] </> pretty idx) = Some Dir ∧
         fs' !! (["data"; "fed"] </> pretty idx </> "train.pt")
         = Some (File partition)) ∧
  (∃ fs',
     Publications.gen_cifar10_partitions Demo.CIFAR10
       Demo.create_lda_partitions ["data"] "cifar10" 2%Z 0.1%float ∅
     = (Ok ["data"; "cifar10"; "partitions"; "2"; "0.10"], fs') ∧
     ∀ idx : nat, (0 ≤ Z.of_nat idx < 2)%Z →
       ∃ partition,
         [([0], [0]); ([1], [1])] !! idx = Some partition ∧
         fs' !! (["data"; "cifar10"; "partitions"; "2"; "0.10"]
                   </> pretty idx </> "train.pt")
         = Some (File partition)).
Proof.
  split.
  - apply (proj1 (partition_and_save_layout Demo.CIFAR10
                    Demo.create_lda_partitions)).
    + reflexivity.
    + reflexivity.
    + apply can_hold_empty.
  - apply (proj2 (partition_and_save_layout Demo.CIFAR10
                    Demo.create_lda_partitions)
             ["data"] "cifar10" 2%Z 0.1%float [(0, 0); (1, 1)]
             [([0], [0]); ([1], [1])] tt ∅).
    + reflexivity.
    + reflexivity.
    + reflexivity.
    + apply can_hold_empty.
Defined.

(** The files that [gen_cifar10_partitions] leaves on an empty file
    system for two clients and concentration 0.1. *)
Example gen_cifar10_partitions_files :
  let run :=
    Publications.gen_cifar10_partitions Demo.CIFAR10
      Demo.create_lda_partitions ["data"] "cifar10" 2%Z 0.1%float ∅ in
  run.1 = Ok ["data"; "cifar10"; "partitions"; "2"; "0.10"] ∧
  run.2 !! ["data"; "cifar10"; "partitions"; "2"; "0.10"; "1"; "train.pt"]
  = Some (File ([1], [1])) ∧
  run.2 !! ["data"; "cifar10"; "partitions"] = Some Dir ∧
  size run.2 = 9.
Proof. by vm_compute. Qed.

End Instances.

(** * Further properties *)

(** ** [test] and [train] on the network *)

Section LoopEffects.
Context {image : Type}.
Variable forward : bool → list (string * tensor) → list image → list logits.
Variable cross_entropy : list logits → list nat → float.
Variable argmax : logits → nat.
Variable optimizer : Type.
Variable SGD : list (string * tensor) → float → float → optimizer.
Variable zero_grad : optimizer → optimizer.
Variable backward :
  optimizer → list (string * tensor) → list image → list nat → optimizer.
Variable sgd_step :
  optimizer → list (string * tensor) → list (string * tensor) * optimizer.

Local Abbreviation sample := (image * nat)%type.
Local Abbreviation test := (Utils.test forward cross_entropy argmax).
Local Abbreviation train :=
  (Utils.train forward cross_entropy optimizer SGD zero_grad backward sgd_step).
Local Abbreviation train_batch :=
  (Utils.train_batch forward cross_entropy optimizer zero_grad backward sgd_step).

(** X1. Whether it returns or raises, [test] leaves the parameters of
    the network as they were, puts the autograd switch back as it found it,
    leaves the network in evaluation mode, and has made one forward call
    per batch. *)
Theorem test_effects (loader : list (list sample)) w :
  let w' := (test loader w).2 in
  net_state w' = net_state w ∧
  grad_enabled w' = grad_enabled w ∧
  net_training w' = false ∧
  trace w' = trace w ++ ((λ b, Forward false false (length b)) <$> loader).
Proof. rewrite test_run. cbn zeta. by destruct (truediv _ _). Qed.


(** X3. Accuracy does not depend on how the samples are batched when the
    network scores each image on its own: two loaders that yield the same
    samples in the same order give the same accuracy. *)
Theorem test_accuracy_batching (score : bool → list (string * tensor) → image → logits)
    (loader1 loader2 : list (list sample)) w :
  (∀ training sd images, forward training sd images = score training sd <$> images) →
  mjoin loader1 = mjoin loader2 →
  mjoin loader1 ≠ [] →
  ∃ loss1 loss2 accuracy,
    (test loader1 w).1 = Ok (loss1, accuracy) ∧
    (test loader2 w).1 = Ok (loss2, accuracy).
Proof.
  intros Hrows Hjoin Hne.
  assert (∀ loader : list (list sample),
            Spec.loop_correct forward argmax (net_state w) loader
            = count_equal (argmax ∘ score false (net_state w) <$> (mjoin loader).*1)
                          (mjoin loader).*2) as Hcorrect.
  { induction loader as [|b loader IH]; [done|].
    cbn [Spec.loop_correct foldr mjoin list_join].
    change (foldr _ 0 loader)
      with (Spec.loop_correct forward argmax (net_state w) loader).
    rewrite IH, !fmap_app, count_equal_app by by rewrite !length_fmap.
    unfold Spec.batch_correct. by rewrite Hrows, <-list_fmap_compose. }
  rewrite !test_run. cbn zeta. rewrite !Hcorrect, !loop_total_samples.
  unfold samples_seen. rewrite <-Hjoin.
  rewrite truediv_pos by (destruct (mjoin loader1); [done|simpl; lia]).
  cbn [fst]. eauto.
Qed.

Lemma train_epochs_empty {A} (rounds : list A) opt w :
  for_each (λ opt _, for_each train_batch [] opt) rounds opt w = (Ok opt, w).
Proof. induction rounds as [|r rounds IH]; [done|]. cbn [for_each]. exact IH. Qed.

(** X5. With [epochs <= 0] or a loader without batches, [train] only
    switches the network to training mode: no engine call is made and the
    parameters stay as they are. *)
Theorem train_nothing_to_do (trainloader : list (list sample)) epochs
    learning_rate momentum w :
  epochs ≤ 0 ∨ trainloader = [] →
  train trainloader epochs learning_rate momentum w = (Ok tt, set_training true w).
Proof.
  intros Hcase. unfold Utils.train.
  erewrite bind_ok by reflexivity. erewrite bind_ok by reflexivity.
  destruct Hcase as [Hepochs| ->].
  - unfold range. rewrite seqZ_nil by done. done.
  - erewrite bind_ok by apply train_epochs_empty. done.
Qed.

End LoopEffects.

(** ** The callback [evaluate] and the weights it is given *)

Section EvaluateMore.
Context {image : Type}.
Variable forward : bool → list (string * tensor) → list image → list logits.
Variable cross_entropy : list logits → list nat → float.
Variable argmax : logits → nat.

Local Abbreviation evaluate := (Utils.evaluate forward cross_entropy argmax).
Local Abbreviation test := (Utils.test forward cross_entropy argmax).

Lemma same_layout_keys fresh1 fresh2 :
  same_layout fresh1 fresh2 → fresh1.*1 = fresh2.*1.
Proof. induction 1 as [|?? ?? [??]]; [done|]. simpl. by f_equal. Qed.

Lemma copy_params_loaded fresh weights :
  NoDup fresh.*1 → (length fresh ≤ length weights)%nat →
  Forall2 (λ kt v, shape (atleast_1d v) = shape kt.2) fresh
          (take (length fresh) weights) →
  copy_param (built_state_dict fresh weights) <$> fresh
  = zip fresh.*1 (atleast_1d <$> take (length fresh) weights).
Proof.
  intros Hnd Hlen Hshapes. apply list_eq. intros i.
  rewrite list_lookup_fmap, lookup_zip_with, !list_lookup_fmap.
  destruct (fresh !! i) as [[k t]|] eqn:Hi; [|done]. cbn [fmap option_fmap option_map mbind option_bind fst].
  destruct (Forall2_lookup_l _ _ _ _ _ Hshapes Hi) as (v & Hv & Hshape).
  rewrite Hv. cbn [option_map mbind option_bind].
  apply lookup_take_Some in Hv as [Hv _]. unfold copy_param. cbn [fst snd].
  rewrite (built_state_dict_lookup _ _ _ _ _ _ Hnd Hi Hv).
  by rewrite decide_True.
Qed.

(** X6. With at least as many weights as parameters, of the parameters'
    shapes, [evaluate] runs [test] on a network that holds exactly the
    given weights under the parameter names, in order: the values a new
    network starts with play no part. *)
Theorem evaluate_tests_the_given_weights fresh testset weights w :
  NoDup fresh.*1 →
  (length fresh ≤ length weights)%nat →
  Forall2 (λ kt v, shape (atleast_1d v) = shape kt.2) fresh
          (take (length fresh) weights) →
  evaluate fresh testset weights w
  = ('(loss, accuracy) ← test (DataLoader testset 50);
     mret (loss, {["accuracy" := accuracy]}))
      (World (zip fresh.*1 (atleast_1d <$> take (length fresh) weights))
             true (grad_enabled w) (trace w)).
Proof.
  intros Hnd Hlen Hshapes. rewrite evaluate_run. unfold load_state_dict.
  cbn [net_state]. rewrite decide_True.
  2:{ split_and!; [by apply missing_keys_long|apply unexpected_keys_nil|
                   by apply size_mismatch_nil]. }
  unfold set_net_state. cbn [net_training grad_enabled trace].
  by rewrite copy_params_loaded.
Qed.

(** X7. A weight whose shape (after [atleast_1d]) is not the shape of
    its parameter makes the strict load raise, and [evaluate] returns no
    result. This is stated for a parameter that is not 0-dimensional: for
    those PyTorch reads a 1-element weight as its element. *)
Theorem evaluate_rejects_wrong_shape fresh testset weights w i k t v :
  NoDup fresh.*1 →
  fresh !! i = Some (k, t) → weights !! i = Some v →
  shape t ≠ [] →
  shape (atleast_1d v) ≠ shape t →
  (evaluate fresh testset weights w).1 = Raise RuntimeError.
Proof.
  intros Hnd Hi Hv _ Hshape. rewrite evaluate_run. unfold load_state_dict.
  cbn [net_state]. rewrite decide_False; [done|].
  intros (_ & _ & Hmismatch).
  apply (filter_nil_not_elem_of _ _ (k, t)) in Hmismatch.
  - apply Hmismatch. by eapply list_elem_of_lookup_2.
  - unfold size_mismatch. cbn [fst snd].
    by rewrite (built_state_dict_lookup _ _ _ _ _ _ Hnd Hi Hv).
Qed.

Lemma size_mismatch_shape sd k t1 t2 :
  shape t1 = shape t2 → size_mismatch sd (k, t1) ↔ size_mismatch sd (k, t2).
Proof. unfold size_mismatch. cbn [fst snd]. by intros ->. Qed.

Lemma size_mismatch_same_layout sd fresh1 fresh2 :
  same_layout fresh1 fresh2 →
  filter (size_mismatch sd) fresh1 = [] → filter (size_mismatch sd) fresh2 = [].
Proof.
  induction 1 as [|[k1 t1] [k2 t2] fresh1 fresh2 [Hk Ht] _ IH]; [done|].
  cbn [fst snd] in Hk, Ht. subst k2. rewrite !filter_cons.
  pose proof (size_mismatch_shape sd k1 t1 t2 Ht) as Hiff.
  destruct (decide (size_mismatch sd (k1, t1))) as [H1|H1],
           (decide (size_mismatch sd (k1, t2))) as [H2|H2];
    try done; try tauto; auto.
Qed.

Lemma copy_param_same_layout sd fresh1 fresh2 :
  same_layout fresh1 fresh2 →
  missing_keys fresh1 sd = [] → filter (size_mismatch sd) fresh1 = [] →
  copy_param sd <$> fresh1 = copy_param sd <$> fresh2.
Proof.
  unfold missing_keys.
  induction 1 as [|[k1 t1] [k2 t2] fresh1 fresh2 [Hk Ht] _ IH]; [done|].
  cbn [fst snd] in Hk, Ht. subst k2. rewrite fmap_cons, !filter_cons.
  cbn [fst]. intros Hmissing Hmismatch.
  destruct (decide (sd !! k1 = None)) as [|Hsome]; [done|].
  destruct (decide (size_mismatch sd (k1, t1))) as [|Hshape]; [done|].
  rewrite !fmap_cons. f_equal; [|by apply IH].
  unfold copy_param, size_mismatch in *. cbn [fst snd] in *.
  destruct (sd !! k1) as [t'|]; [|done]. rewrite <-Ht.
  apply dec_stable in Hshape. by rewrite !decide_True.
Qed.

(** X8. What [evaluate] returns depends on the new network only through
    its parameter names and shapes, and not at all on the network, the
    switches or the calls that came before: two calls with the same weights
    return the same result or raise the same exception. *)
Theorem evaluate_result_of_layout fresh1 fresh2 testset weights w1 w2 :
  same_layout fresh1 fresh2 →
  (evaluate fresh1 testset weights w1).1 = (evaluate fresh2 testset weights w2).1.
Proof.
  intros Hlayout. pose proof (same_layout_keys _ _ Hlayout) as Hkeys.
  assert (built_state_dict fresh1 weights = built_state_dict fresh2 weights)
    as Hsd by (unfold built_state_dict; by rewrite Hkeys).
  assert (same_layout fresh2 fresh1) as Hlayout'.
  { clear -Hlayout. induction Hlayout as [|?? ?? [??]]; constructor; auto. }
  rewrite !evaluate_run. unfold load_state_dict. cbn [net_state].
  rewrite <-Hsd. set (sd := built_state_dict fresh1 weights).
  assert (missing_keys fresh2 sd = missing_keys fresh1 sd) as ->
    by (unfold missing_keys; by rewrite Hkeys).
  assert (unexpected_keys fresh2 sd = unexpected_keys fresh1 sd) as ->
    by (unfold unexpected_keys; by rewrite Hkeys).
  destruct (decide (missing_keys fresh1 sd = [] ∧ unexpected_keys fresh1 sd = []
                    ∧ filter (size_mismatch sd) fresh1 = []))
    as [(Hmiss & Hunexp & Hmism)|Hfail].
  - rewrite decide_True
      by eauto using size_mismatch_same_layout.
    unfold set_net_state. cbn [net_state net_training grad_enabled trace].
    rewrite <-(copy_param_same_layout sd fresh1 fresh2) by done.
    unfold mbind, M_bind, bind. rewrite !test_run. cbn zeta.
    by destruct (truediv _ _).
  - rewrite decide_False; [done|].
    intros (Hmiss & Hunexp & Hmism). apply Hfail.
    eauto using size_mismatch_same_layout.
Qed.


End EvaluateMore.

Section InitialParameters.
Context {image parameters : Type}.
Variable forward : bool → list (string * tensor) → list image → list logits.
Variable cross_entropy : list logits → list nat → float.
Variable argmax : logits → nat.
Variable resnet18 : Z → list (string * tensor).
(** [flwr.common.parameter]'s two conversions; the second undoes the
    first. *)
Variable weights_to_parameters : list tensor → parameters.
Variable parameters_to_weights : parameters → list tensor.
Hypothesis weights_round_trip :
  ∀ weights, parameters_to_weights (weights_to_parameters weights) = weights.

Local Abbreviation evaluate := (Utils.evaluate forward cross_entropy argmax).
Local Abbreviation test := (Utils.test forward cross_entropy argmax).




End InitialParameters.

(** ** [partition_and_save] and the files around it *)

Lemma for_each_preserves {W A B} (R : W → W → Prop) `{!Reflexive R}
    `{!Transitive R} (body : B → A → M W B) :
  (∀ acc x w, R w (body acc x w).2) →
  ∀ xs acc w, R w (for_each body xs acc w).2.
Proof.
  intros Hbody. induction xs as [|x xs IH]; intros acc w; [done|].
  cbn [for_each]. unfold mbind, M_bind, bind. specialize (Hbody acc x w).
  destruct (body acc x w) as [[acc'|e] w']; [|done].
  etrans; [exact Hbody|apply IH].
Qed.

Lemma find_app_Some {A} (f : A → bool) (l1 l2 : list A) a :
  find f l1 = Some a → find f (l1 ++ l2) = Some a.
Proof.
  induction l1 as [|x l1 IH]; [done|]. simpl. by destruct (f x).
Qed.

Lemma prefixes_snoc (p : Path) name :
  prefixes (p </> name) = prefixes p ++ [p </> name].
Proof.
  unfold prefixes, joinpath. rewrite length_app. cbn [length].
  rewrite seq_app, fmap_app. f_equal.
  - apply list_fmap_ext. intros i n Hn.
    apply list_elem_of_lookup_2, elem_of_seq in Hn. apply take_app_le. lia.
  - simpl. f_equal. apply take_ge. rewrite length_app. simpl. lia.
Qed.

Section PartitionMore.
Context {XY D : Type}.
Variable create_lda_partitions :
  XY → option D → Z → float → result (list XY * D).
Implicit Types fs : gmap Path (node XY).

Local Abbreviation partition_and_save :=
  (Utils.partition_and_save create_lda_partitions).

Local Instance same_outside_refl fed_dir :
  Reflexive (@same_outside XY fed_dir).
Proof. by intros fs q. Qed.
Local Instance same_outside_trans fed_dir :
  Transitive (@same_outside XY fed_dir).
Proof. intros fs1 fs2 fs3 H12 H23 q ??. by rewrite H23, H12. Qed.

Lemma mkdir_outside (fed_dir : Path) name fs :
  same_outside fed_dir fs (mkdir (fed_dir </> name) fs).2.
Proof.
  intros q Hq1 Hq2. unfold mkdir. destruct (find _ _); [done|]. cbn [snd].
  rewrite mkdirs_lookup, decide_False; [done|].
  intros [Hpre| ->]%prefixes_joinpath; [done|].
  apply Hq2. by apply prefix_app_r.
Qed.

Lemma save_outside (fed_dir : Path) name1 name2 (obj : XY) fs :
  same_outside fed_dir fs (save obj (fed_dir </> name1 </> name2) fs).2.
Proof.
  intros q Hq1 Hq2. unfold save.
  assert (q ≠ fed_dir </> name1 </> name2) as Hne.
  { intros ->. apply Hq2. unfold joinpath. rewrite <-app_assoc.
    by apply prefix_app_r. }
  destruct (fs !! (fed_dir </> name1 </> name2)) as [[|c]|];
    try destruct (is_dir _ _); cbn [snd]; try done; by rewrite lookup_insert_ne.
Qed.

Lemma save_partition_outside (fed_dir : Path) acc item fs :
  same_outside fed_dir fs (Utils.save_partition fed_dir acc item fs).2.
Proof.
  destruct item as [idx partition]. unfold Utils.save_partition.
  unfold mbind, M_bind, bind.
  pose proof (mkdir_outside fed_dir (pretty idx) fs) as Hmkdir.
  destruct (mkdir _ fs) as [[[]|e] fs1]; [|done].
  etrans; [exact Hmkdir|]. apply save_outside.
Qed.

(** X11. Whatever happens, [partition_and_save] reads and writes only
    [fed_dir], its ancestors and what lies below it: every other path of
    the file system is as before. *)
Theorem partition_and_save_stays_inside dataset (fed_dir : Path)
    dirichlet_dist num_partitions concentration fs :
  same_outside fed_dir fs
    (partition_and_save dataset fed_dir dirichlet_dist num_partitions
       concentration fs).2.
Proof.
  unfold Utils.partition_and_save, mbind at 1, M_bind, bind, lift.
  destruct (create_lda_partitions _ _ _ _) as [[partitions d]|e]; [|done].
  unfold mbind, M_bind, bind.
  pose proof (for_each_preserves (same_outside fed_dir)
                (Utils.save_partition fed_dir)
                (save_partition_outside fed_dir)
                (imap pair partitions) tt fs) as Hloop.
  by destruct (for_each _ _ _ _) as [[[]|e] fs'].
Qed.

Lemma partition_and_save_run_again dataset (fed_dir : Path) dirichlet_dist
    num_partitions concentration partitions d fs :
  create_lda_partitions dataset dirichlet_dist num_partitions concentration
  = Ok (partitions, d) →
  can_hold fs fed_dir →
  ∃ fs',
    partition_and_save dataset fed_dir dirichlet_dist num_partitions
      concentration fs = (Ok d, fs') ∧
    can_hold fs' fed_dir ∧
    (∀ j : nat, (length partitions ≤ j)%nat →
       fs' !! (fed_dir </> pretty j </> "train.pt")
       = fs !! (fed_dir </> pretty j </> "train.pt")) ∧
    (∀ idx partition, partitions !! idx = Some partition →
       fs' !! (fed_dir </> pretty idx </> "train.pt") = Some (File partition)).
Proof.
  intros Hlda Hhold.
  destruct (save_partitions_run fed_dir (imap pair partitions) fs)
    as (fs' & Hrun & Hhold' & _ & Hothers & Hall); [|done|].
  { rewrite imap_pair_fst. apply NoDup_seq. }
  exists fs'. split_and!.
  - unfold Utils.partition_and_save. rewrite Hlda.
    erewrite bind_ok by reflexivity. cbv beta iota.
    by erewrite bind_ok by exact Hrun.
  - done.
  - intros j Hj. apply Hothers. rewrite imap_pair_fst, elem_of_seq. lia.
  - intros idx partition Hidx. apply Hall.
    by apply (elem_of_lookup_imap_2 pair).
Qed.

(** X12. A second [partition_and_save] into the same [fed_dir] succeeds
    ([exist_ok]) and replaces the partitions of the indices it writes; the
    [train.pt] files of higher indices that the first run left stay where
    they are. *)
Theorem partition_and_save_twice dataset1 dataset2 (fed_dir : Path) dist1 dist2
    n1 n2 c1 c2 partitions1 partitions2 d1 d2 fs :
  create_lda_partitions dataset1 dist1 n1 c1 = Ok (partitions1, d1) →
  create_lda_partitions dataset2 dist2 n2 c2 = Ok (partitions2, d2) →
  can_hold fs fed_dir →
  ∃ fs1 fs2,
    partition_and_save dataset1 fed_dir dist1 n1 c1 fs = (Ok d1, fs1) ∧
    partition_and_save dataset2 fed_dir dist2 n2 c2 fs1 = (Ok d2, fs2) ∧
    (∀ idx partition, partitions2 !! idx = Some partition →
       fs2 !! (fed_dir </> pretty idx </> "train.pt") = Some (File partition)) ∧
    (∀ idx partition, partitions1 !! idx = Some partition →
       (length partitions2 ≤ idx)%nat →
       fs2 !! (fed_dir </> pretty idx </> "train.pt") = Some (File partition)).
Proof.
  intros Hlda1 Hlda2 Hhold.
  destruct (partition_and_save_run_again _ _ _ _ _ _ _ _ Hlda1 Hhold)
    as (fs1 & Hrun1 & Hhold1 & _ & Hall1).
  destruct (partition_and_save_run_again _ _ _ _ _ _ _ _ Hlda2 Hhold1)
    as (fs2 & Hrun2 & _ & Hothers2 & Hall2).
  exists fs1, fs2. split_and!; [done|done|done|].
  intros idx partition Hidx Hge. rewrite Hothers2 by done. by apply Hall1.
Qed.

(** X13. When [fed_dir] or one of its ancestors is a regular file and
    there is a partition to write, [partition_and_save] raises
    [NotADirectoryError] and the file system is as before. *)
Theorem partition_and_save_blocked dataset (fed_dir : Path) dirichlet_dist
    num_partitions concentration partition partitions d fs q :
  create_lda_partitions dataset dirichlet_dist num_partitions concentration
  = Ok (partition :: partitions, d) →
  q ∈ prefixes fed_dir → is_file (fs !! q) = true →
  partition_and_save dataset fed_dir dirichlet_dist num_partitions
    concentration fs = (Raise NotADirectoryError, fs).
Proof.
  intros Hlda Hq Hfile. unfold Utils.partition_and_save. rewrite Hlda.
  erewrite bind_ok by reflexivity. cbv beta iota.
  apply bind_raise. cbn [imap for_each]. apply bind_raise.
  unfold Utils.save_partition. apply bind_raise. unfold mkdir.
  destruct (find (λ q, is_file (fs !! q)) (prefixes fed_dir)) as [q'|] eqn:Hfind.
  - rewrite prefixes_snoc, (find_app_Some _ _ _ _ Hfind).
    apply find_some in Hfind as [Hin _].
    apply list_elem_of_In, prefixes_length in Hin.
    rewrite decide_False; [done|]. intros ->. unfold joinpath in Hin.
    rewrite length_app in Hin. simpl in Hin. lia.
  - apply list_elem_of_In in Hq.
    by rewrite (find_none _ _ Hfind _ Hq) in Hfile.
Qed.

End PartitionMore.

(** ** [gen_cifar10_partitions] in the two modules *)

Section GenPartitionsMore.
Context {raw D : Type}.
Variable CIFAR10 : Path → bool → result (list (raw * nat)).
Variable create_lda_partitions :
  list raw * list nat → option D → Z → float →
  result (list (list raw * list nat) * D).

Local Abbreviation gen_publications :=
  (Publications.gen_cifar10_partitions CIFAR10 create_lda_partitions).
Local Abbreviation gen_experiments :=
  (Experiments.gen_cifar10_partitions CIFAR10 create_lda_partitions).

(** X14. The publications [gen_cifar10_partitions] does to the file
    system what the experiments one does when given the directory
    [<root>/<dataset_name>/partitions/<clients>/<concentration>], and
    raises when it does; it differs in returning that directory, where the
    experiments one returns [None]. *)
Theorem gen_cifar10_partitions_modules (path_original_dataset : Path)
    dataset_name num_total_clients lda_concentration fs :
  let fed_dir :=
    path_original_dataset </> dataset_name </> "partitions"
      </> pretty num_total_clients </> format_2f lda_concentration in
  gen_publications path_original_dataset dataset_name num_total_clients
    lda_concentration fs
  = match gen_experiments path_original_dataset fed_dir num_total_clients
            lda_concentration fs with
    | (Ok _, fs') => (Ok fed_dir, fs')
    | (Raise e, fs') => (Raise e, fs')
    end.
Proof.
  intros fed_dir.
  unfold Publications.gen_cifar10_partitions,
    Experiments.gen_cifar10_partitions.
  fold fed_dir. unfold mbind, M_bind, bind, lift.
  destruct (CIFAR10 _ _) as [trainset|e]; [|done].
  by destruct (Utils.partition_and_save _ _ _ _ _ _ _) as [[d|e] fs'].
Qed.

Lemma gen_publications_returns (root : Path) name n c fs p :
  (gen_publications root name n c fs).1 = Ok p →
  p = root </> name </> "partitions" </> pretty n </> format_2f c.
Proof.
  unfold Publications.gen_cifar10_partitions, mbind, M_bind, bind, lift.
  destruct (CIFAR10 _ _) as [trainset|e]; [|done].
  destruct (Utils.partition_and_save _ _ _ _ _ _ _) as [[d|e] fs']; [|done].
  by intros [= <-].
Qed.


(** X16. The directory that the publications [gen_cifar10_partitions]
    returns ends, for a finite concentration, in a name with exactly two
    digits after the point. *)
Theorem gen_cifar10_partitions_two_decimals (root : Path) name n c fs p :
  (gen_publications root name n c fs).1 = Ok p →
  Prim2SF c ≠ S754_nan → (∀ sign, Prim2SF c ≠ S754_infinity sign) →
  ∃ sgn int_part d1 d2,
    last p
    = Some (sgn +:+ int_part +:+ "." +:+ String d1 (String d2 EmptyString)) ∧
    digit d1 ∧ digit d2.
Proof.
  intros ->%gen_publications_returns Hnan Hinf.
  destruct (format_2f_two_decimals c Hnan Hinf)
    as (sgn & int_part & d1 & d2 & Heq & Hd1 & Hd2).
  exists sgn, int_part, d1, d2. unfold joinpath. by rewrite last_snoc, Heq.
Qed.

(** When the download of the training set or the partitioner raises, both
    [gen_cifar10_partitions] raise the same exception and the file system
    is as before. *)
Lemma gen_cifar10_partitions_failure (root fed_dir : Path) name n c fs e :
  CIFAR10 root true = Raise e ∨
  (∃ trainset, CIFAR10 root true = Ok trainset ∧
     create_lda_partitions (trainset.*1, trainset.*2) None n c = Raise e) →
  gen_publications root name n c fs = (Raise e, fs) ∧
  gen_experiments root fed_dir n c fs = (Raise e, fs).
Proof.
  unfold Publications.gen_cifar10_partitions,
    Experiments.gen_cifar10_partitions, Utils.partition_and_save,
    mbind, M_bind, bind, lift.
  by intros [->|(trainset & -> & ->)].
Qed.

End GenPartitionsMore.

(** ** [ClientDataset] *)

Lemma array_getitem_nonneg {A} (a : list A) (idx : Z) :
  0 ≤ idx → Publications.array_getitem a idx = a !! Z.to_nat idx.
Proof. intros. unfold Publications.array_getitem. by rewrite decide_True. Qed.

Lemma array_getitem_is_Some {A} (a : list A) (idx : Z) :
  is_Some (Publications.array_getitem a idx)
  ↔ - Z.of_nat (length a) ≤ idx < Z.of_nat (length a).
Proof.
  unfold Publications.array_getitem. repeat case_decide.
  - rewrite lookup_lt_is_Some. lia.
  - rewrite lookup_lt_is_Some. lia.
  - split; [by intros [? ?]|lia].
Qed.

Lemma array_getitem_wrap {A} (a : list A) (idx : Z) :
  0 ≤ idx < Z.of_nat (length a) →
  Publications.array_getitem a (idx - Z.of_nat (length a))
  = Publications.array_getitem a idx.
Proof.
  intros Hidx. unfold Publications.array_getitem.
  rewrite decide_False, decide_True, decide_True by lia. f_equal. lia.
Qed.

Section ClientDatasetProperties.
Context {raw pil image D : Type}.
Variable fromarray : raw → pil.
Variable create_lda_partitions :
  list raw * list nat → option D → Z → float →
  result (list (list raw * list nat) * D).

Local Abbreviation ClientDataset := (@Publications.ClientDataset raw pil image).
Local Abbreviation getitem := (Publications.ClientDataset_getitem fromarray).
Local Abbreviation len := (@Publications.ClientDataset_len raw pil image).
Local Abbreviation partition_and_save :=
  (Utils.partition_and_save create_lda_partitions).

(** X18. What [partition_and_save] writes for a client is what
    [ClientDataset] reads back: built on [fed_dir/<idx>/train.pt], the
    dataset holds the images and labels of partition [idx], its length is
    the number of those labels, and the file system is left as it is. *)
Theorem client_dataset_reads_partition dataset (fed_dir : Path) dirichlet_dist
    num_partitions concentration partitions d fs idx images labels
    (transform : option (pil → image)) :
  create_lda_partitions dataset dirichlet_dist num_partitions concentration
  = Ok (partitions, d) →
  can_hold fs fed_dir →
  partitions !! idx = Some (images, labels) →
  ∃ fs' self,
    partition_and_save dataset fed_dir dirichlet_dist num_partitions
      concentration fs = (Ok d, fs') ∧
    Publications.ClientDataset_init (fed_dir </> pretty idx </> "train.pt")
      transform fs' = (Ok self, fs') ∧
    Publications.X self = images ∧ Publications.Y self = labels ∧
    Publications.transform self = transform ∧
    len self = Z.of_nat (length labels).
Proof.
  intros Hlda Hhold Hidx.
  destruct (partition_and_save_run _ _ _ _ _ _ _ _ _ Hlda Hhold)
    as (fs' & Hrun & Hall).
  destruct (Hall idx _ Hidx) as [_ Hfile].
  exists fs', {| Publications.transform := transform;
                 Publications.X := images; Publications.Y := labels |}.
  split_and!; try done.
  unfold Publications.ClientDataset_init, load, mbind, M_bind, bind.
  by rewrite Hfile.
Qed.

(** X19. For a dataset with as many images as labels, [self[idx]]
    returns an item exactly for [-len(self) <= idx < len(self)] and raises
    [IndexError] otherwise; [idx - len(self)] names the item that [idx]
    names; a tensor index names the item of the int it holds. *)
Theorem client_dataset_getitem_bounds (self : ClientDataset) :
  length (Publications.X self) = length (Publications.Y self) →
  (∀ idx, is_Some (getitem self idx)
          ↔ - len self ≤ Publications.tolist idx < len self) ∧
  (∀ idx, 0 ≤ idx < len self →
     getitem self (Publications.IntIndex (idx - len self))
     = getitem self (Publications.IntIndex idx)) ∧
  (∀ idx, getitem self (Publications.TensorIndex idx)
          = getitem self (Publications.IntIndex idx)).
Proof.
  intros Hlen. unfold Publications.ClientDataset_len.
  split_and!; [|by intros idx Hidx; unfold Publications.ClientDataset_getitem;
                  cbn [Publications.tolist];
                  rewrite <-Hlen at 1; rewrite !array_getitem_wrap by lia|done].
  intros idx. unfold Publications.ClientDataset_getitem.
  set (i := Publications.tolist idx).
  pose proof (array_getitem_is_Some (Publications.X self) i) as HX.
  pose proof (array_getitem_is_Some (Publications.Y self) i) as HY.
  rewrite Hlen in HX.
  destruct (Publications.array_getitem (Publications.X self) i) as [x|];
    [destruct (Publications.array_getitem (Publications.Y self) i) as [y|]|];
    cbn [mbind option_bind].
  - split; [intros _; apply HX; by eexists|intros _; by eexists].
  - split; [by intros [? ?]|]. intros [? ?]%HY. done.
  - split; [by intros [? ?]|]. intros [? ?]%HX. done.
Qed.

(** X20. Reading the items [0 .. len(self) - 1] in order gives every
    image, made a PIL image and transformed when there is a transform,
    with its label, each once and in the order of the file. *)
Theorem client_dataset_iterates (self : ClientDataset) :
  length (Publications.X self) = length (Publications.Y self) →
  (λ idx, getitem self (Publications.IntIndex idx)) <$> seqZ 0 (len self)
  = (λ xy, Some (match Publications.transform self with
                 | Some f => inr (f (fromarray xy.1))
                 | None => inl (fromarray xy.1)
                 end, xy.2))
      <$> zip (Publications.X self) (Publications.Y self).
Proof.
  intros Hlen. unfold Publications.ClientDataset_len. apply list_eq. intros n.
  rewrite !list_lookup_fmap, lookup_zip_with.
  destruct (decide (n < length (Publications.Y self))%nat) as [Hn|Hn].
  - rewrite lookup_seqZ_lt by lia. cbn [fmap option_fmap option_map].
    unfold Publications.ClientDataset_getitem. cbn [Publications.tolist].
    rewrite !array_getitem_nonneg by lia. rewrite Z.add_0_l, Nat2Z.id.
    destruct (lookup_lt_is_Some_2 (Publications.X self) n) as [x ->]; [lia|].
    destruct (lookup_lt_is_Some_2 (Publications.Y self) n) as [y ->]; [lia|].
    done.
  - rewrite lookup_seqZ_ge by lia.
    rewrite (lookup_ge_None_2 (Publications.X self)) by lia. done.
Qed.

End ClientDatasetProperties.

(** ** The config callback, the plot and the pipelines *)

(** X21. The callback that [gen_on_fit_config_fn] returns gives, for
    every round, a config with exactly the keys [epoch_global], [epochs],
    [batch_size] and [client_learning_rate]; [epoch_global] is the round
    and the other three are the generator's arguments, the same in every
    round. *)
Theorem on_fit_config_rounds epochs_per_round batch_size client_learning_rate :
  ∃ on_fit_config,
    Publications.gen_on_fit_config_fn epochs_per_round batch_size
      client_learning_rate = Some on_fit_config ∧
    ∀ rnd,
      dom (on_fit_config rnd)
      = {["epoch_global"; "epochs"; "batch_size"; "client_learning_rate"]} ∧
      on_fit_config rnd !! "epoch_global" = Some (SInt rnd) ∧
      on_fit_config rnd !! "epochs" = Some (SInt epochs_per_round) ∧
      on_fit_config rnd !! "batch_size" = Some (SInt batch_size) ∧
      on_fit_config rnd !! "client_learning_rate"
      = Some (SFloat client_learning_rate) ∧
      ∀ rnd' key, key ≠ "epoch_global" →
        on_fit_config rnd' !! key = on_fit_config rnd !! key.
Proof.
  eexists. split; [reflexivity|]. intros rnd.
  unfold Publications.on_fit_config. split_and!.
  - rewrite !dom_insert_L, dom_empty_L. set_solver.
  - by simplify_map_eq.
  - by simplify_map_eq.
  - by simplify_map_eq.
  - by simplify_map_eq.
  - intros rnd' key Hkey.
    rewrite !lookup_insert. repeat case_decide; try done; by subst.
Qed.

(** X22. With a history that lacks the metric [plot_metric_from_history]
    raises [KeyError], and with one that has no pair for it [ValueError]
    (there is nothing to unpack into [x] and [y]); in both cases no call
    is made on the figure and nothing is saved. *)
Theorem plot_metric_from_history_no_data
    (hist : gmap string (list (Z * float))) metric_str strategy_name
    expected_maximum save_path calls :
  (hist !! metric_str = None →
   Utils.plot_metric_from_history hist metric_str strategy_name
     expected_maximum save_path calls = (Raise KeyError, calls)) ∧
  (hist !! metric_str = Some [] →
   Utils.plot_metric_from_history hist metric_str strategy_name
     expected_maximum save_path calls = (Raise ValueError, calls)).
Proof.
  unfold Utils.plot_metric_from_history, Utils.getitem.
  split; intros Hlookup; by rewrite Hlookup.
Qed.

(** X23. Whatever [num_classes] is, [get_transforms] returns exactly a
    ["train"] and a ["test"] pipeline; the test pipeline has no random
    step, and the train pipeline is the same test pipeline behind one
    random horizontal flip. Every [num_classes] other than 10 gets the
    CIFAR-100 statistics. *)
Theorem get_transforms_train_test num_classes :
  ∃ train test,
    Transforms.get_transforms num_classes
    = <["test" := test]> (<["train" := train]> ∅) ∧
    dom (Transforms.get_transforms num_classes) = {["train"; "test"]} ∧
    Transforms.flips test = 0%nat ∧
    train = Transforms.Compose [Transforms.RandomHorizontalFlip; test] ∧
    test = (if decide (num_classes = 10) then Transforms.transform_cifar10_test
            else Transforms.transform_cifar100_test).
Proof.
  unfold Transforms.get_transforms. case_decide; eexists _, _;
    (split_and!; [reflexivity| |reflexivity|reflexivity|reflexivity]);
    rewrite !dom_insert_L, dom_empty_L; set_solver.
Qed.

(** ** [get_cifar_eval_fn] in the two modules *)

(** X17. The experiments [get_cifar_eval_fn] is the publications one for
    a model constructor that ignores the class count and always builds the
    10-class network: same dataset, same test split, same transform, same
    failure when the download fails. For [num_classes = 100] it evaluates
    CIFAR-100 with the 10-class network. *)
Theorem get_cifar_eval_fn_modules {raw image : Type}
    (resnet18 : Z → list (string * tensor))
    (CIFAR10 CIFAR100 : Path → bool → result (list (raw * nat)))
    (transform_cifar10_test transform_cifar100_test : raw → image)
    (forward : bool → list (string * tensor) → list image → list logits)
    (cross_entropy : list logits → list nat → float) (argmax : logits → nat)
    (path_original_dataset : Path) (num_classes : Z) :
  Experiments.get_cifar_eval_fn resnet18 CIFAR10 CIFAR100
    transform_cifar10_test transform_cifar100_test forward cross_entropy
    argmax path_original_dataset num_classes
  = Publications.get_cifar_eval_fn (λ _, resnet18 10) CIFAR10 CIFAR100
      transform_cifar10_test transform_cifar100_test forward cross_entropy
      argmax path_original_dataset num_classes.
Proof.
  unfold Experiments.get_cifar_eval_fn, Publications.get_cifar_eval_fn,
    Experiments.get_model, Publications.get_cifar_model.
  by case_decide.
Qed.

(** ** The further properties on the small engine *)

Section MoreInstances.
Local Abbreviation test := (Utils.test Demo.forward Demo.cross_entropy Demo.argmax).
Local Abbreviation evaluate :=
  (Utils.evaluate Demo.forward Demo.cross_entropy Demo.argmax).
Local Abbreviation train :=
  (Utils.train Demo.forward Demo.cross_entropy unit Demo.SGD Demo.zero_grad
     Demo.backward Demo.sgd_step).
Local Open Scope nat_scope.

Lemma test_accuracy_range_witness : (0 <= 2 # 3 <= 1)%Q.
Proof.
  apply (test_accuracy_range Demo.forward Demo.cross_entropy Demo.argmax
           [[(0, 0); (1, 0)]; [(1, 1)]] Demo.world0 1.5%float (2 # 3)%Q).
  reflexivity.
Defined.

Lemma test_accuracy_batching_witness :
  ∃ loss1 loss2 accuracy,
    (test [[(0, 0); (1, 0)]; [(1, 1)]] Demo.world0).1 = Ok (loss1, accuracy) ∧
    (test [[(0, 0)]; [(1, 0); (1, 1)]] Demo.world0).1 = Ok (loss2, accuracy).
Proof.
  apply (test_accuracy_batching Demo.forward Demo.cross_entropy Demo.argmax
           (λ _ _ n, match n with O => [1; 0] | _ => [0; 1] end%float)).
  - reflexivity.
  - reflexivity.
  - discriminate.
Defined.

Lemma train_nothing_to_do_witness :
  train [] 3%Z 0.01%float 0.9%float Demo.world0
  = (Ok tt, set_training true Demo.world0).
Proof.
  apply (train_nothing_to_do Demo.forward Demo.cross_entropy unit Demo.SGD
           Demo.zero_grad Demo.backward Demo.sgd_step).
  right. reflexivity.
Defined.

Lemma evaluate_tests_the_given_weights_witness :
  let weights := [Tensor [2] [1; 2]%float; Tensor [] [3%float]] in
  evaluate Demo.two_params [(0, 0)] weights Demo.world0
  = ('(loss, accuracy) ← test (DataLoader [(0, 0)] 50);
     mret (loss, {["accuracy" := accuracy]}))
      (World (zip Demo.two_params.*1 (atleast_1d <$> take 2 weights))
             true true []).
Proof.
  apply (evaluate_tests_the_given_weights Demo.forward Demo.cross_entropy
           Demo.argmax Demo.two_params [(0, 0)]
           [Tensor [2] [1; 2]%float; Tensor [] [3%float]] Demo.world0).
  - refine (bool_decide_unpack _ _). vm_compute. exact I.
  - simpl. lia.
  - repeat constructor.
Defined.

Lemma evaluate_rejects_wrong_shape_witness :
  (evaluate Demo.two_params [(0, 0)]
     [Tensor [3] [1; 2; 3]%float; Tensor [1] [3%float]] Demo.world0).1
  = Raise RuntimeError.
Proof.
  apply (evaluate_rejects_wrong_shape Demo.forward Demo.cross_entropy
           Demo.argmax Demo.two_params [(0, 0)]
           [Tensor [3] [1; 2; 3]%float; Tensor [1] [3%float]] Demo.world0
           0 "fc.weight" (Tensor [2] [0; 0]%float)
           (Tensor [3] [1; 2; 3]%float)).
  - refine (bool_decide_unpack _ _). vm_compute. exact I.
  - reflexivity.
  - reflexivity.
  - discriminate.
  - discriminate.
Defined.

Lemma evaluate_result_of_layout_witness :
  let other := [("fc.weight", Tensor [2] [5; 6]%float);
                ("fc.bias", Tensor [1] [7%float])] in
  let weights := [Tensor [2] [1; 2]%float; Tensor [] [3%float]] in
  (evaluate Demo.two_params [(0, 0)] weights Demo.world0).1
  = (evaluate other [(0, 0)] weights (World [] false false [Step])).1.
Proof.
  apply (evaluate_result_of_layout Demo.forward Demo.cross_entropy Demo.argmax).
  repeat constructor.
Defined.



Lemma partition_and_save_twice_witness :
  ∃ fs1 fs2,
    Utils.partition_and_save Demo.create_lda_partitions
      ([0; 1; 2], [0; 1; 0]) ["fed"] None 3%Z 0.1%float ∅ = (Ok tt, fs1) ∧
    Utils.partition_and_save Demo.create_lda_partitions
      ([7], [1]) ["fed"] None 1%Z 0.5%float fs1 = (Ok tt, fs2) ∧
    (∀ idx partition, [([7], [1])] !! idx = Some partition →
       fs2 !! (["fed"] </> pretty idx </> "train.pt") = Some (File partition)) ∧
    (∀ idx partition,
       [([0], [0]); ([1], [1]); ([2], [0])] !! idx = Some partition →
       length [([7], [1])] ≤ idx →
       fs2 !! (["fed"] </> pretty idx </> "train.pt") = Some (File partition)).
Proof.
  apply (partition_and_save_twice Demo.create_lda_partitions
           ([0; 1; 2], [0; 1; 0]) ([7], [1]) ["fed"] None None
           3%Z 1%Z 0.1%float 0.5%float).
  - reflexivity.
  - reflexivity.
  - apply can_hold_empty.
Defined.

Lemma partition_and_save_blocked_witness :
  Utils.partition_and_save Demo.create_lda_partitions ([0; 1], [0; 1])
    ["data"; "fed"] None 2%Z 0.1%float {[ ["data"] := File ([], []) ]}
  = (Raise NotADirectoryError, {[ ["data"] := File ([], []) ]}).
Proof.
  apply (partition_and_save_blocked Demo.create_lda_partitions
           ([0; 1], [0; 1]) ["data"; "fed"] None 2%Z 0.1%float
           ([0], [0]) [([1], [1])] tt {[ ["data"] := File ([], []) ]}
           ["data"]).
  - reflexivity.
  - refine (bool_decide_unpack _ _). vm_compute. exact I.
  - vm_compute. reflexivity.
Defined.


Lemma gen_cifar10_partitions_two_decimals_witness :
  ∃ sgn int_part d1 d2,
    last ["data"; "cifar10"; "partitions"; "2"; "0.10"]
    = Some (sgn +:+ int_part +:+ "." +:+ String d1 (String d2 EmptyString)) ∧
    digit d1 ∧ digit d2.
Proof.
  apply (gen_cifar10_partitions_two_decimals Demo.CIFAR10
           Demo.create_lda_partitions ["data"] "cifar10" 2%Z 0.1%float ∅).
  - vm_compute. reflexivity.
  - vm_compute. discriminate.
  - intros sign. vm_compute. discriminate.
Defined.

Lemma client_dataset_reads_partition_witness :
  ∃ fs' (self : @Publications.ClientDataset nat nat nat),
    Utils.partition_and_save Demo.create_lda_partitions ([0; 1], [0; 1])
      ["fed"] None 2%Z 0.1%float ∅ = (Ok tt, fs') ∧
    Publications.ClientDataset_init (["fed"] </> pretty 1 </> "train.pt")
      (Some S) fs' = (Ok self, fs') ∧
    Publications.X self = [1] ∧ Publications.Y self = [1] ∧
    Publications.transform self = Some S ∧
    Publications.ClientDataset_len self = Z.of_nat (length [1]).
Proof.
  apply (client_dataset_reads_partition Demo.create_lda_partitions
           ([0; 1], [0; 1]) ["fed"] None 2%Z 0.1%float
           [([0], [0]); ([1], [1])] tt ∅ 1 [1] [1] (Some S)).
  - reflexivity.
  - apply can_hold_empty.
  - reflexivity.
Defined.

Lemma client_dataset_getitem_bounds_witness :
  let self : @Publications.ClientDataset nat nat nat :=
    {| Publications.transform := Some S;
       Publications.X := [10; 20; 30]; Publications.Y := [0; 1; 0] |} in
  let getitem := Publications.ClientDataset_getitem (λ x : nat, x) self in
  let len := Publications.ClientDataset_len self in
  (∀ idx, is_Some (getitem idx)
          ↔ (- len ≤ Publications.tolist idx < len)%Z) ∧
  (∀ idx, (0 ≤ idx < len)%Z →
     getitem (Publications.IntIndex (idx - len))
     = getitem (Publications.IntIndex idx)) ∧
  (∀ idx, getitem (Publications.TensorIndex idx)
          = getitem (Publications.IntIndex idx)).
Proof.
  apply (client_dataset_getitem_bounds (λ x : nat, x)
           {| Publications.transform := Some S;
              Publications.X := [10; 20; 30]; Publications.Y := [0; 1; 0] |}).
  reflexivity.
Defined.

Lemma client_dataset_iterates_witness :
  let self : @Publications.ClientDataset nat nat nat :=
    {| Publications.transform := Some S;
       Publications.X := [10; 20; 30]; Publications.Y := [0; 1; 0] |} in
  (λ idx, Publications.ClientDataset_getitem (λ x : nat, x) self
            (Publications.IntIndex idx))
    <$> seqZ 0 (Publications.ClientDataset_len self)
  = [Some (inr 11, 0); Some (inr 21, 1); Some (inr 31, 0)].
Proof.
  apply (client_dataset_iterates (λ x : nat, x)
           {| Publications.transform := Some S;
              Publications.X := [10; 20; 30]; Publications.Y := [0; 1; 0] |}).
  reflexivity.
Defined.

(** [self[-1]] is the last item and [self[3]] raises on three items. *)
Example client_dataset_getitem_examples :
  let self : @Publications.ClientDataset nat nat nat :=
    {| Publications.transform := None;
       Publications.X := [10; 20; 30]; Publications.Y := [0; 1; 0] |} in
  Publications.ClientDataset_getitem (λ x : nat, x) self
    (Publications.IntIndex (-1)) = Some (inl 30, 0) ∧
  Publications.ClientDataset_getitem (λ x : nat, x) self
    (Publications.TensorIndex 1) = Some (inl 20, 1) ∧
  Publications.ClientDataset_getitem (λ x : nat, x) self
    (Publications.IntIndex 3) = None ∧
  Publications.ClientDataset_getitem (λ x : nat, x) self
    (Publications.IntIndex (-4)) = None.
Proof. by vm_compute. Qed.

Lemma plot_metric_from_history_no_data_witness :
  Utils.plot_metric_from_history {["loss" := [(1%Z, 0.5%float)]]} "accuracy"
    "FedAdam" 100%float ["plot.png"] []
  = (Raise KeyError, []).
Proof.
  apply (proj1 (plot_metric_from_history_no_data
                  {["loss" := [(1%Z, 0.5%float)]]} "accuracy" "FedAdam"
                  100%float ["plot.png"] [])).
  reflexivity.
Defined.

End MoreInstances.
